(** * The immunization-coverage normalization notebook (src/etl.py)

    A shallow embedding of the "Transform" cells of the notebook and of the
    library operations they call, followed by the properties of the
    normalization pipeline.

    Strings are [string]s whose characters are read as the code points
    U+0000..U+00FF.  That alphabet is closed under Python's [str.lower] and
    contains every character the notebook's patterns mention. *)

From Stdlib Require Import Bool List String Ascii NArith ZArith QArith Qround Lia.
From Stdlib Require Import Floats.
Import ListNotations.

Local Open Scope string_scope.
Local Open Scope bool_scope.

(** ** Characters *)

Definition code (c : ascii) : N := N_of_ascii c.

Definition in_range (lo hi : N) (c : ascii) : bool :=
  ((lo <=? code c) && (code c <=? hi))%N.

(** [\w] of Python's [re] on a [str] pattern: [c.isalnum() or c == '_'].
    Below U+0100 the alphanumerics are the ASCII letters and digits, the
    letters of the Latin-1 block and its superscripts and fractions. *)
Definition is_word (c : ascii) : bool :=
  in_range 48 57 c || in_range 65 90 c || in_range 97 122 c
  || (code c =? 95)%N
  || (code c =? 170)%N || (code c =? 178)%N || (code c =? 179)%N
  || (code c =? 181)%N || (code c =? 185)%N || (code c =? 186)%N
  || in_range 188 190 c
  || in_range 192 214 c || in_range 216 246 c || in_range 248 255 c.

(** [str.isspace] below U+0100. *)
Definition is_space (c : ascii) : bool :=
  in_range 9 13 c || in_range 28 32 c
  || (code c =? 133)%N || (code c =? 160)%N.

(** [str.lower] on one character: the upper-case letters below U+0100 are
    A-Z and U+00C0..U+00DE without the multiplication sign U+00D7; each has
    its lower-case form 32 code points further. *)
Definition lower_char (c : ascii) : ascii :=
  if in_range 65 90 c || (in_range 192 222 c && negb (code c =? 215)%N)
  then ascii_of_N (code c + 32)
  else c.

Fixpoint lower (s : string) : string :=
  match s with
  | EmptyString => EmptyString
  | String c s' => String (lower_char c) (lower s')
  end.

(** ** Rename columns (etl.py, lines 152-174) *)

(** The character class [[%#]]. *)
Definition is_pct_or_hash (c : ascii) : bool :=
  Ascii.eqb c "%" || Ascii.eqb c "#".

(** The character class [[#% ]]. *)
Definition is_special (c : ascii) : bool :=
  Ascii.eqb c "#" || Ascii.eqb c "%" || Ascii.eqb c " ".

(** [re.sub(r'(\w)([%#])', r'\1 \2', col_name)]: the scan goes left to
    right; where a word character is followed by [%] or [#] the two are
    replaced by themselves with a space in between and the scan goes on
    after the match, otherwise one character is copied. *)
Fixpoint sub_word_symbol (s : string) : string :=
  match s with
  | EmptyString => EmptyString
  | String c tl =>
      match tl with
      | EmptyString => String c EmptyString
      | String d rest =>
          if is_word c && is_pct_or_hash d
          then String c (String " " (String d (sub_word_symbol rest)))
          else String c (sub_word_symbol tl)
      end
  end.

(** The inner function [replace_special_chars], on the matched character. *)
Definition replace_special_chars (char : ascii) : string :=
  if Ascii.eqb char "#" then "no"
  else if Ascii.eqb char "%" then "pct"
  else if is_space char then "_"
  else String char EmptyString.

(** [re.sub(r'[#% ]', replace_special_chars, col_name)]: every match is one
    character long. *)
Fixpoint sub_special (s : string) : string :=
  match s with
  | EmptyString => EmptyString
  | String c s' =>
      if is_special c then replace_special_chars c ++ sub_special s'
      else String c (sub_special s')
  end.

Definition to_snake_case (col_name : string) : string :=
  let col_name := sub_word_symbol col_name in
  lower (sub_special col_name).

(** [rename_cols = [to_snake_case(c) for c in df.columns]] *)
Definition rename_cols (columns : list string) : list string :=
  map to_snake_case columns.

(** The same renaming read in one pass, the way section 4.1 of the
    specification describes it: a [#] or [%] that follows a word character
    is set off by an underscore, the three special characters become their
    tokens, and every other character is lower-cased in place. *)
Fixpoint snake_from (after_word : bool) (s : string) : string :=
  match s with
  | EmptyString => EmptyString
  | String c s' =>
      (if is_pct_or_hash c && after_word then "_" else EmptyString)
      ++ (if is_special c then replace_special_chars c
          else String (lower_char c) EmptyString)
      ++ snake_from (is_word c) s'
  end.

Fixpoint has_special (s : string) : bool :=
  match s with
  | EmptyString => false
  | String c s' => is_special c || has_special s'
  end.

(** A name in canonical form: no special character, nothing left to
    lower-case. *)
Fixpoint is_canonical (s : string) : bool :=
  match s with
  | EmptyString => true
  | String c s' =>
      negb (is_special c) && Ascii.eqb (lower_char c) c && is_canonical s'
  end.

(** ** Text operations of the engine

    The three patterns the notebook hands to the engine's regular-expression
    functions, [","], ["-"] and [" - "], contain no metacharacter: matching
    them is a search for the pattern as a literal, non-empty substring. *)

(** [Matcher.replaceAll]: the matches are found left to right and do not
    overlap.  [skip] counts the characters of the current match that are
    still to be consumed. *)
Fixpoint replace_from (pattern replacement : string) (skip : nat) (s : string)
  : string :=
  match s with
  | EmptyString => EmptyString
  | String c s' =>
      match skip with
      | S k => replace_from pattern replacement k s'
      | O =>
          if prefix pattern s
          then replacement
               ++ replace_from pattern replacement (length pattern - 1) s'
          else String c (replace_from pattern replacement 0 s')
      end
  end.

Definition replace_all (pattern replacement s : string) : string :=
  replace_from pattern replacement 0 s.

(** [String.split(regex, -1)], the form the engine's [split] calls: every
    match separates two segments, and empty segments are kept wherever they
    occur.  The result is the segment being read followed by the later
    ones. *)
Fixpoint split_from (pattern : string) (skip : nat) (s : string)
  : string * list string :=
  match s with
  | EmptyString => (EmptyString, [])
  | String c s' =>
      match skip with
      | S k => split_from pattern k s'
      | O =>
          if prefix pattern s
          then let (seg, segs) := split_from pattern (length pattern - 1) s' in
               (EmptyString, seg :: segs)
          else let (seg, segs) := split_from pattern 0 s' in
               (String c seg, segs)
      end
  end.

Definition split_all (pattern s : string) : list string :=
  let (seg, segs) := split_from pattern 0 s in seg :: segs.

(** SQL [LIKE] for a pattern without escape character: [%] stands for any
    run of characters, [_] for exactly one. *)
Fixpoint like_match (pattern : string) : string -> bool :=
  match pattern with
  | EmptyString => fun s => match s with EmptyString => true | _ => false end
  | String p pattern' =>
      if Ascii.eqb p "%" then
        fix any (s : string) : bool :=
          like_match pattern' s
          || match s with
             | EmptyString => false
             | String _ s' => any s'
             end
      else if Ascii.eqb p "_" then
        fun s => match s with
                 | EmptyString => false
                 | String _ s' => like_match pattern' s'
                 end
      else
        fun s => match s with
                 | EmptyString => false
                 | String c s' => Ascii.eqb c p && like_match pattern' s'
                 end
  end.

(** ** Casting a string to [int]

    [UTF8String.toInt], which the cast calls in the engine's default
    (non-ANSI) mode; a failure makes the cast yield null.  [int] is a 32-bit
    two's-complement integer. *)

Definition wrap32 (z : Z) : Z := ((z + 2 ^ 31) mod 2 ^ 32 - 2 ^ 31)%Z.

Definition INT_MIN : Z := (-2147483648)%Z.

Definition is_digit (c : ascii) : bool := in_range 48 57 c.

Definition digit_value (c : ascii) : Z := (Z.of_N (code c) - 48)%Z.

(** [isWhitespaceOrISOControl] on a byte: a character from U+0080 on is
    encoded in bytes that are neither. *)
Definition is_whitespace_or_control (c : ascii) : bool :=
  (code c <=? 32)%N || (code c =? 127)%N.

Definition is_empty (s : string) : bool :=
  match s with EmptyString => true | _ => false end.

Fixpoint drop_leading (skip : ascii -> bool) (s : string) : string :=
  match s with
  | EmptyString => EmptyString
  | String c s' => if skip c then drop_leading skip s' else s
  end.

Fixpoint drop_trailing (skip : ascii -> bool) (s : string) : string :=
  match s with
  | EmptyString => EmptyString
  | String c s' =>
      let t := drop_trailing skip s' in
      if skip c && is_empty t then EmptyString else String c t
  end.

Fixpoint all_digits (s : string) : bool :=
  match s with
  | EmptyString => true
  | String c s' => is_digit c && all_digits s'
  end.

(** The digit loop: the number is accumulated as a negative value, so that
    [INT_MIN] can be reached; it stops at the decimal separator and gives
    back what follows it. *)
Fixpoint to_int_digits (result : Z) (s : string) : option (Z * string) :=
  match s with
  | EmptyString => Some (result, EmptyString)
  | String b s' =>
      if Ascii.eqb b "." then Some (result, s')
      else if is_digit b then
        if (result <? Z.quot INT_MIN 10)%Z then None
        else
          let result := wrap32 (result * 10 - digit_value b) in
          if (0 <? result)%Z then None else to_int_digits result s'
      else None
  end.

Definition toInt (s : string) : option Z :=
  match drop_leading is_whitespace_or_control s with
  | EmptyString => None
  | String b _ as t =>
      let t := drop_trailing is_whitespace_or_control t in
      let negative := Ascii.eqb b "-" in
      let signed := negative || Ascii.eqb b "+" in
      if signed && (length t =? 1)%nat then None
      else
        match to_int_digits 0 (if signed then substring 1 (length t - 1) t else t) with
        | None => None
        | Some (result, fraction) =>
            if all_digits fraction then
              if negative then Some result
              else
                let result := wrap32 (- result) in
                if (result <? 0)%Z then None else Some result
            else None
        end
  end.

(** ** Decimals

    A [BigDecimal] is an unscaled integer and a scale: the number
    [unscaledValue * 10 ^ (- scale)]. *)

Record BigDecimal : Set := mkBigDecimal { unscaledValue : Z; scale : Z }.

Definition in_int32 (z : Z) : bool :=
  ((INT_MIN <=? z) && (z <=? 2147483647))%Z.

(** Reads a run of digits: the number read so far, how many digits were
    read, and the rest of the string. *)
Fixpoint read_digits (acc count : Z) (s : string) : Z * Z * string :=
  match s with
  | EmptyString => (acc, count, EmptyString)
  | String c s' =>
      if is_digit c
      then read_digits (acc * 10 + digit_value c) (count + 1) s'
      else (acc, count, s)
  end.

Definition read_sign (s : string) : bool * string :=
  match s with
  | String c s' =>
      if Ascii.eqb c "-" then (true, s')
      else if Ascii.eqb c "+" then (false, s')
      else (false, s)
  | EmptyString => (false, s)
  end.

(** The exponent part: nothing, or [e] or [E], an optional sign and at
    least one digit up to the end of the string; the exponent has to be an
    [int]. *)
Definition read_exponent (s : string) : option Z :=
  match s with
  | EmptyString => Some 0%Z
  | String c s' =>
      if Ascii.eqb c "e" || Ascii.eqb c "E" then
        let (negexp, digits) := read_sign s' in
        match read_digits 0 0 digits with
        | (exp, count, EmptyString) =>
            let exp := if negexp then (- exp)%Z else exp in
            if (0 <? count)%Z && in_int32 exp then Some exp else None
        | _ => None
        end
      else None
  end.

(** [new BigDecimal(String)]: an optional sign, digits with at most one
    decimal point and at least one digit, an optional exponent.  [None] is
    the [NumberFormatException]. *)
Definition parse_BigDecimal (s : string) : option BigDecimal :=
  let (negative, s1) := read_sign s in
  let '(int_part, int_count, s2) := read_digits 0 0 s1 in
  let '(significand, frac_count, s3) :=
    match s2 with
    | String c s2' =>
        if Ascii.eqb c "." then read_digits int_part 0 s2'
        else (int_part, 0%Z, s2)
    | EmptyString => (int_part, 0%Z, s2)
    end in
  if (int_count + frac_count =? 0)%Z then None
  else
    match read_exponent s3 with
    | None => None
    | Some exp =>
        let scl := (frac_count - exp)%Z in
        if in_int32 scl
        then Some (mkBigDecimal (if negative then - significand else significand)%Z scl)
        else None
    end.

(** Number of decimal digits of a natural number (one for zero), by
    counting the divisions by ten; [fuel] bounds the count. *)
Fixpoint digits_count (fuel : nat) (n : Z) : Z :=
  match fuel with
  | O => 1%Z
  | S fuel' => if (n <? 10)%Z then 1%Z else (1 + digits_count fuel' (n / 10))%Z
  end.

(** [BigDecimal.precision]: the number of digits of the unscaled value. *)
Definition precision (d : BigDecimal) : Z :=
  let n := Z.abs (unscaledValue d) in
  digits_count (S (Z.to_nat (Z.log2 n))) n.

(** [BigDecimal.setScale(newScale, ROUND_HALF_UP)], as the new unscaled
    value: exact when the scale grows, otherwise the quotient by the power
    of ten rounded to the nearest integer, a tie going away from zero. *)
Definition setScale_half_up (d : BigDecimal) (newScale : Z) : Z :=
  let u := unscaledValue d in
  if (scale d <=? newScale)%Z then (u * 10 ^ (newScale - scale d))%Z
  else
    let divisor := (10 ^ (scale d - newScale))%Z in
    let q := (Z.abs u / divisor)%Z in
    let r := (Z.abs u mod divisor)%Z in
    let q := if (divisor <=? 2 * r)%Z then (q + 1)%Z else q in
    (Z.sgn u * q)%Z.

(** [Decimal.changePrecision(precision, scale)] with the cast's rounding
    mode; [None] when the rounded number needs more than [p] digits, which
    the cast turns into null. *)
Definition changePrecision (d : BigDecimal) (p s : Z) : option Z :=
  let u := setScale_half_up d s in
  if (Z.abs u <? 10 ^ p)%Z then Some u else None.

Definition MAX_PRECISION : Z := 38%Z.

Definition is_trimmed (c : ascii) : bool := (code c <=? 32)%N.

Definition trim (s : string) : string :=
  drop_trailing is_trimmed (drop_leading is_trimmed s).

(** What the cast of a string to a decimal comes to: a number, null, an
    [ArithmeticException] that ends the job, or a computation this
    embedding gives no meaning to. *)
Inductive decimal_cast : Set :=
| CastNumber (u : Z)
| CastNull
| CastOverflow
| CastBeyond.

(** The largest power of ten the engine is taken to form: beyond it the
    JVM's [BigInteger.pow] reports an overflow or comes to the end of its
    range. *)
Definition POWER_LIMIT : Z := 536870912%Z.

(** What [Decimal.fromString] and the cast do with the [BigDecimal] read.
    [Decimal.fromString] gives up, with null, on a number with more than
    [MAX_PRECISION] digits before the decimal point; that count,
    [precision - scale], is an [int] and wraps, so that a number with an
    exponent near [2 ^ 31] passes the test.  [Decimal.set] then brings a
    negative scale to zero, which for such a number asks for a power of ten
    that does not exist and raises [ArithmeticException], and the cast
    changes the precision.  No meaning is given to the zero with such an
    exponent, nor to a number with more than [POWER_LIMIT] digits after the
    decimal point. *)
Definition BigDecimal_to_decimal (p s : Z) (d : BigDecimal) : decimal_cast :=
  if (MAX_PRECISION <? wrap32 (precision d - scale d))%Z then CastNull
  else if (POWER_LIMIT <? - scale d)%Z then
    if (unscaledValue d =? 0)%Z then CastBeyond else CastOverflow
  else if (POWER_LIMIT <? scale d)%Z then CastBeyond
  else
    match changePrecision d p s with
    | Some u => CastNumber u
    | None => CastNull
    end.

(** Casting a string to [decimal(p, s)]: [Decimal.fromString] trims the
    characters up to U+0020 from both ends and reads the rest as a
    [BigDecimal]; what is no number gives null. *)
Definition string_to_decimal (p s : Z) (str : string) : decimal_cast :=
  match parse_BigDecimal (trim str) with
  | None => CastNull
  | Some d => BigDecimal_to_decimal p s d
  end.

(** The number of a cast that gives one. *)
Definition cast_number (c : decimal_cast) : option Z :=
  match c with
  | CastNumber u => Some u
  | _ => None
  end.

(** ** Doubles

    A [double] is a binary64 floating-point number; the kernel's [float]
    computes as the JVM does.  A finite non-zero double is
    [(-1)^s * m * 2 ^ e] with [m] below [2 ^ 53] and [e] from [-1074] on. *)

Definition double : Set := float.

Definition dyadic (m : positive) (e : Z) : Q :=
  inject_Z (Zpos m) * Qpower 2 e.

(** Half the distance from [m * 2 ^ e] to the next double above and below:
    below a power of two the doubles are twice as dense. *)
Definition half_gap_up (e : Z) : Q := Qpower 2 (e - 1).

Definition half_gap_down (m : positive) (e : Z) : Q :=
  if Pos.eqb m (2 ^ 52) && (-1074 <? e)%Z then Qpower 2 (e - 2)
  else Qpower 2 (e - 1).

(** The rationals that round to the double [m * 2 ^ e]: those nearer to it
    than to its neighbours, and the two midpoints when [m] is even. *)
Definition rounds_to (m : positive) (e : Z) (d : Q) : bool :=
  let lo := dyadic m e - half_gap_down m e in
  let hi := dyadic m e + half_gap_up e in
  if Z.even (Zpos m) then Qle_bool lo d && Qle_bool d hi
  else negb (Qle_bool d lo) && negb (Qle_bool hi d).

Definition on_grid (n q : Z) : Q := inject_Z n * Qpower 10 q.

(** The multiple of [10 ^ q] that rounds to the double, when there is one;
    of two, the nearer. *)
Definition candidate (m : positive) (e q : Z) : option Z :=
  let v := dyadic m e in
  let n := Qfloor (v / Qpower 10 q) in
  match rounds_to m e (on_grid n q), rounds_to m e (on_grid (n + 1) q) with
  | true, true =>
      if Qle_bool (v - on_grid n q) (on_grid (n + 1) q - v)
      then Some n else Some (n + 1)%Z
  | true, false => Some n
  | false, true => Some (n + 1)%Z
  | false, false => None
  end.

(** The double written out in full. *)
Definition exact_decimal (m : positive) (e : Z) : BigDecimal :=
  if (0 <=? e)%Z then mkBigDecimal (Zpos m * 2 ^ e) 0
  else mkBigDecimal (Zpos m * 5 ^ (- e)) (- e).

(** [Double.toString] writes as many digits as are needed to tell the
    double from its neighbours: the search goes from a coarse grid of
    decimals to finer ones and takes the first decimal that rounds to the
    double.  From [10 ^ e] on the double itself is on the grid.  (The JVM
    writes at least two digits, and before release 19 now and then one more
    than needed; what it writes always rounds to the double, so that a cast
    to a decimal type can differ from this model only for a double whose
    neighbourhood holds a rounding tie of the target scale.) *)
Fixpoint shortest_from (fuel : nat) (m : positive) (e q : Z) : BigDecimal :=
  match fuel with
  | O => exact_decimal m e
  | S fuel' =>
      match candidate m e q with
      | Some n => mkBigDecimal n (- q)
      | None => shortest_from fuel' m e (q - 1)
      end
  end.

(** A grid to start from, coarser than any that holds a decimal rounding
    to [m * 2 ^ e]: [10 ^ start_grid e] is above [2 ^ (e + 54)]. *)
Definition start_grid (e : Z) : Z := ((e + 53) * 30103 / 100000 + 2)%Z.

Definition shortest_decimal (m : positive) (e : Z) : BigDecimal :=
  shortest_from 1400 m e (start_grid e).

(** [Decimal(double)] goes through [BigDecimal(Double.toString(x))]; the
    strings of NaN and of the infinities are not numbers there. *)
Definition double_to_BigDecimal (x : double) : option BigDecimal :=
  match Prim2SF x with
  | S754_zero _ => Some (mkBigDecimal 0 1)
  | S754_finite s m e =>
      let d := shortest_decimal m e in
      Some (if s then mkBigDecimal (- unscaledValue d) (scale d) else d)
  | S754_infinity _ => None
  | S754_nan => None
  end.

Definition double_to_decimal (p s : Z) (x : double) : option Z :=
  match double_to_BigDecimal x with
  | None => None
  | Some d => changePrecision d p s
  end.

(** ** Cells, rows and data frames *)

Inductive DataType : Set :=
| IntegerType
| DoubleType
| StringType
| DecimalType (p s : Z)
| ArrayType
| BooleanType.

(** A cell: null, or a value of the column's type.  An [ArrayType] cell is
    an array of strings, a [DecimalType] cell its unscaled value together
    with the scale. *)
Inductive value : Set :=
| VNull
| VInt (n : Z)
| VDouble (x : double)
| VString (s : string)
| VDecimal (unscaled scl : Z)
| VArray (items : list string)
| VBool (b : bool).

Definition Schema : Set := list (string * DataType).
Definition Row : Set := list value.

Record DataFrame : Set := mkDataFrame { schema : Schema; rows : list Row }.

Definition columns (df : DataFrame) : list string := map fst (schema df).

(** What a query can end with instead of a data frame: a column that the
    analysis does not resolve, or an [ArithmeticException] raised while a
    cell is computed.  [Unsupported] marks an operand type, an argument or
    a computation this embedding gives no meaning to; nothing is said of
    the engine there. *)
Inductive error : Set :=
| UnresolvedColumn (name : string)
| AmbiguousReference (name : string)
| ArithmeticException
| Unsupported.

Inductive result (A : Type) : Type :=
| Ok (a : A)
| Failed (e : error).
Arguments Ok {A} a.
Arguments Failed {A} e.

Definition bind {A B : Type} (r : result A) (k : A -> result B) : result B :=
  match r with
  | Ok a => k a
  | Failed e => Failed e
  end.

Notation "x <- r ;; k" := (bind r (fun x => k))
  (at level 61, r at next level, right associativity).

(** Column names are compared without regard to case. *)
Definition resolver (a b : string) : bool := String.eqb (lower a) (lower b).

(** ** Column expressions

    A column expression is analysed against a schema: either it fails, or
    it has a type and, on every row, a value or the failure that ends the
    job. *)
Definition Column : Type := Schema -> result (DataType * (Row -> result value)).

Fixpoint positions (name : string) (sch : Schema) (i : nat)
  : list (nat * DataType) :=
  match sch with
  | [] => []
  | (n, t) :: sch' =>
      if resolver n name then (i, t) :: positions name sch' (S i)
      else positions name sch' (S i)
  end.

Fixpoint mentions (c : ascii) (s : string) : bool :=
  match s with
  | EmptyString => false
  | String d s' => Ascii.eqb c d || mentions c s'
  end.

(** [F.col(name)], and a column given by its name: a name with a dot or a
    backquote is not a plain reference. *)
Definition col (name : string) : Column := fun sch =>
  if mentions "." name || mentions "`" name then Failed Unsupported
  else
    match positions name sch 0 with
    | [] => Failed (UnresolvedColumn name)
    | [(i, t)] => Ok (t, fun row => Ok (nth i row VNull))
    | _ => Failed (AmbiguousReference name)
    end.

Definition lit_int (n : Z) : Column :=
  fun _ => Ok (IntegerType, fun _ => Ok (VInt n)).

Definition lit_string (s : string) : Column :=
  fun _ => Ok (StringType, fun _ => Ok (VString s)).

Definition int_to_double (n : Z) : double :=
  if (n <? 0)%Z then PrimFloat.opp (PrimFloat.of_uint63 (Uint63.of_Z (- n)))
  else PrimFloat.of_uint63 (Uint63.of_Z n).

Definition multiply_double (a b : value) : value :=
  match a, b with
  | VDouble x, VDouble y => VDouble (PrimFloat.mul x y)
  | _, _ => VNull
  end.

Definition multiply_int (a b : value) : value :=
  match a, b with
  | VInt x, VInt y => VInt (wrap32 (x * y))
  | _, _ => VNull
  end.

Definition int_cell_to_double (v : value) : value :=
  match v with
  | VInt n => VDouble (int_to_double n)
  | _ => VNull
  end.

(** [a * b]: an [int] operand next to a [double] one is first made a
    double. *)
Definition multiply (a b : Column) : Column := fun sch =>
  a' <- a sch ;;
  b' <- b sch ;;
  match fst a', fst b' with
  | DoubleType, DoubleType =>
      Ok (DoubleType,
          fun row => x <- snd a' row ;; y <- snd b' row ;;
                     Ok (multiply_double x y))
  | DoubleType, IntegerType =>
      Ok (DoubleType,
          fun row => x <- snd a' row ;; y <- snd b' row ;;
                     Ok (multiply_double x (int_cell_to_double y)))
  | IntegerType, DoubleType =>
      Ok (DoubleType,
          fun row => x <- snd a' row ;; y <- snd b' row ;;
                     Ok (multiply_double (int_cell_to_double x) y))
  | IntegerType, IntegerType =>
      Ok (IntegerType,
          fun row => x <- snd a' row ;; y <- snd b' row ;; Ok (multiply_int x y))
  | _, _ => Failed Unsupported
  end.

(** The patterns and replacements the regular-expression syntax reads as
    the text itself: a pattern that is not empty and has none of the
    characters [\ ^ $ . | ? * + ( ) [ ] { }], a replacement without [$] and
    [\].  The notebook's patterns [,], [-] and [ - ] are of that kind, and
    only for them are [replace_all] and [split_all] what the engine
    computes. *)
Definition is_metacharacter (c : ascii) : bool :=
  existsb (Ascii.eqb c) (list_ascii_of_string "\^$.|?*+()[]{}").

Definition is_literal (pattern : string) : bool :=
  negb (is_empty pattern)
  && forallb (fun c => negb (is_metacharacter c)) (list_ascii_of_string pattern).

Definition is_literal_replacement (replacement : string) : bool :=
  negb (mentions "$" replacement) && negb (mentions "\" replacement).

Definition replace_value (pattern replacement : string) (v : value) : value :=
  match v with
  | VString s => VString (replace_all pattern replacement s)
  | _ => VNull
  end.

(** [F.regexp_replace(c, pattern, replacement)], for a pattern and a
    replacement that stand for themselves. *)
Definition regexp_replace (c : Column) (pattern replacement : string) : Column :=
  fun sch =>
    c' <- c sch ;;
    match fst c' with
    | StringType =>
        if is_literal pattern && is_literal_replacement replacement
        then Ok (StringType,
                 fun row => v <- snd c' row ;;
                            Ok (replace_value pattern replacement v))
        else Failed Unsupported
    | _ => Failed Unsupported
    end.

Definition decimal_cell (scl : Z) (u : option Z) : value :=
  match u with
  | Some u => VDecimal u scl
  | None => VNull
  end.

(** The value of [cast] on a cell, in the default mode, where a value that
    cannot be converted becomes null.  On the cells that [cast_error]
    names the cast gives no value at all: the job fails there, and the
    null that stands here in its place is of no account; [cast_cell] puts
    the two together. *)
Definition cast_value (to : DataType) (v : value) : value :=
  match to, v with
  | IntegerType, VString s =>
      match toInt s with
      | Some n => VInt n
      | None => VNull
      end
  | IntegerType, VInt n => VInt n
  | DecimalType p s, VString str =>
      decimal_cell s (cast_number (string_to_decimal p s str))
  | DecimalType p s, VDouble x => decimal_cell s (double_to_decimal p s x)
  | DecimalType p s, VInt n => decimal_cell s (changePrecision (mkBigDecimal n 0) p s)
  | _, _ => VNull
  end.

Definition castable (from to : DataType) : bool :=
  match from, to with
  | StringType, IntegerType | IntegerType, IntegerType => true
  | (StringType | DoubleType | IntegerType), DecimalType p s =>
      ((0 <=? s) && (s <=? p) && (1 <=? p) && (p <=? MAX_PRECISION))%Z
  | _, _ => false
  end.

(** The cells on which the cast of a column of type [from] fails: those
    of a string column whose cast to a decimal raises, or has no meaning
    here. *)
Definition cast_error (from to : DataType) (v : value) : option error :=
  match from, to, v with
  | StringType, DecimalType p s, VString str =>
      match string_to_decimal p s str with
      | CastOverflow => Some ArithmeticException
      | CastBeyond => Some Unsupported
      | _ => None
      end
  | _, _, _ => None
  end.

(** The cast on one cell: its value, or the failure of the job. *)
Definition cast_cell (from to : DataType) (v : value) : result value :=
  match cast_error from to v with
  | Some e => Failed e
  | None => Ok (cast_value to v)
  end.

(** [c.cast(to)]; the type names ["int"], ["decimal (4, 1)"] and
    ["decimal(4, 1)"] of the notebook are [IntegerType] and twice
    [DecimalType 4 1]. *)
Definition cast (c : Column) (to : DataType) : Column := fun sch =>
  c' <- c sch ;;
  if castable (fst c') to
  then Ok (to, fun row => v <- snd c' row ;; cast_cell (fst c') to v)
  else Failed Unsupported.

Definition split_value (pattern : string) (v : value) : value :=
  match v with
  | VString s => VArray (split_all pattern s)
  | _ => VNull
  end.

(** [F.split(c, pattern)], for a pattern that stands for itself. *)
Definition split (c : Column) (pattern : string) : Column := fun sch =>
  c' <- c sch ;;
  match fst c' with
  | StringType =>
      if is_literal pattern
      then Ok (ArrayType, fun row => v <- snd c' row ;; Ok (split_value pattern v))
      else Failed Unsupported
  | _ => Failed Unsupported
  end.

(** An index outside the array gives null in the default mode. *)
Definition item_value (i : nat) (v : value) : value :=
  match v with
  | VArray items =>
      match nth_error items i with
      | Some s => VString s
      | None => VNull
      end
  | _ => VNull
  end.

(** [c.getItem(i)] *)
Definition getItem (c : Column) (i : nat) : Column := fun sch =>
  c' <- c sch ;;
  match fst c' with
  | ArrayType =>
      Ok (StringType, fun row => v <- snd c' row ;; Ok (item_value i v))
  | _ => Failed Unsupported
  end.

Definition like_value (pattern : string) (v : value) : value :=
  match v with
  | VString s => VBool (like_match pattern s)
  | _ => VNull
  end.

(** [c.like(pattern)] *)
Definition like (c : Column) (pattern : string) : Column := fun sch =>
  c' <- c sch ;;
  match fst c' with
  | StringType =>
      if mentions "\" pattern then Failed Unsupported
      else Ok (BooleanType,
               fun row => v <- snd c' row ;; Ok (like_value pattern v))
  | _ => Failed Unsupported
  end.

(** The branch is taken when the condition is true, not when it is false
    or null. *)
Definition when_value (cond v otherwise : value) : value :=
  match cond with
  | VBool true => v
  | _ => otherwise
  end.

(** [F.when(cond, v).otherwise(e)], for two string branches; only the
    branch taken is evaluated. *)
Definition when_otherwise (cond v e : Column) : Column := fun sch =>
  cond' <- cond sch ;;
  v' <- v sch ;;
  e' <- e sch ;;
  match fst cond', fst v', fst e' with
  | BooleanType, StringType, StringType =>
      Ok (StringType,
          fun row =>
            b <- snd cond' row ;;
            match b with
            | VBool true => snd v' row
            | _ => snd e' row
            end)
  | _, _, _ => Failed Unsupported
  end.

(** ** Data frame operations *)

Fixpoint replace_cells (names : list string) (colName : string) (v : value)
  (row : Row) : Row :=
  match names, row with
  | n :: names', x :: row' =>
      (if resolver n colName then v else x) :: replace_cells names' colName v row'
  | _, _ => row
  end.

(** The rows mapped one after the other; the first failure is the
    failure of the whole. *)
Fixpoint traverse {A B : Type} (f : A -> result B) (l : list A)
  : result (list B) :=
  match l with
  | [] => Ok []
  | x :: l' => y <- f x ;; ys <- traverse f l' ;; Ok (y :: ys)
  end.

(** [df.withColumn(colName, c)]: every column of that name is replaced, in
    place and under the name given; without one the column is added at the
    end.  The notebook displays the frame after each stage and writes it
    out as a whole at the end, so a cell whose evaluation raises makes the
    job fail; the failure is put here with the stage that has the cell. *)
Definition withColumn (colName : string) (c : Column) (df : DataFrame)
  : result DataFrame :=
  c' <- c (schema df) ;;
  if existsb (fun n => resolver n colName) (columns df)
  then
    rows' <- traverse
               (fun row => v <- snd c' row ;;
                           Ok (replace_cells (columns df) colName v row))
               (rows df) ;;
    Ok (mkDataFrame
          (map (fun f => if resolver (fst f) colName then (colName, fst c') else f)
               (schema df))
          rows')
  else
    rows' <- traverse (fun row => v <- snd c' row ;; Ok (row ++ [v])%list)
                      (rows df) ;;
    Ok (mkDataFrame (schema df ++ [(colName, fst c')])%list rows').

(** [df.withColumnRenamed(existing, new)]; nothing changes when no column
    has the name. *)
Definition withColumnRenamed (existing new : string) (df : DataFrame) : DataFrame :=
  mkDataFrame
    (map (fun f => if resolver (fst f) existing then (new, snd f) else f) (schema df))
    (rows df).

Fixpoint drop_cells {A : Type} (names : list string) (colName : string)
  (cells : list A) : list A :=
  match names, cells with
  | n :: names', x :: cells' =>
      if resolver n colName then drop_cells names' colName cells'
      else x :: drop_cells names' colName cells'
  | _, _ => cells
  end.

(** [df.drop(colName)] *)
Definition drop (colName : string) (df : DataFrame) : DataFrame :=
  mkDataFrame (drop_cells (columns df) colName (schema df))
              (map (drop_cells (columns df) colName) (rows df)).

(** ** The transformation (etl.py, lines 169-240) *)

(** Lines 169-174: the loop runs over the column names the frame had before
    it, paired with their new names. *)
Definition rename_columns (df : DataFrame) : DataFrame :=
  fold_left (fun df names => withColumnRenamed (fst names) (snd names) df)
            (combine (columns df) (rename_cols (columns df)))
            df.

(** Lines 186-189 *)
Definition num_cols : list string := ["no_immunized"; "no_eligible"].

Definition to_number (c : string) : Column :=
  cast (regexp_replace (col c) "," "") IntegerType.

Definition convert_numbers (df : DataFrame) : result DataFrame :=
  fold_left (fun df c => df' <- df ;; withColumn c (to_number c) df')
            num_cols (Ok df).

(** Line 202 *)
Definition rescale_coverage (df : DataFrame) : result DataFrame :=
  withColumn "pct_coverage"
    (cast (multiply (col "pct_coverage") (lit_int 100)) (DecimalType 4 1)) df.

(** Lines 217-219 *)
Definition separate_interval (df : DataFrame) : result DataFrame :=
  df <- withColumn "lower_95_pct_ci"
          (cast (getItem (split (col "95_pct_ci") "-") 0) (DecimalType 4 1)) df ;;
  df <- withColumn "upper_95_pct_ci"
          (cast (getItem (split (col "95_pct_ci") "-") 1) (DecimalType 4 1)) df ;;
  Ok (drop "95_pct_ci" df).

(** Lines 236-240 *)
Definition group_vaccines (df : DataFrame) : result DataFrame :=
  df <- withColumn "vaccine_group" (getItem (split (col "vaccine") " - ") 0) df ;;
  withColumn "vaccine_group"
    (when_otherwise (like (col "vaccine_group") "MEN-C%")
                    (lit_string "MEN-C")
                    (col "vaccine_group")) df.

Definition transform (df : DataFrame) : result DataFrame :=
  df <- convert_numbers (rename_columns df) ;;
  df <- rescale_coverage df ;;
  df <- separate_interval df ;;
  group_vaccines df.

(** ** What the stages compute on one cell *)

(** Lines 188-189 on a cell of a count column. *)
Definition coerce (v : value) : value :=
  cast_value IntegerType (replace_value "," "" v).

(** Line 202 on a cell of a double column. *)
Definition rescale (v : value) : value :=
  cast_value (DecimalType 4 1)
             (multiply_double v (int_cell_to_double (VInt 100))).

(** Lines 217-218 on a cell of the interval column: the lower and the
    upper bound.  [bound_cell] is what the cast comes to, the failure of
    the job included; [bound] is the bound it gives where it gives one. *)
Definition bound_cell (i : nat) (v : value) : result value :=
  cast_cell StringType (DecimalType 4 1) (item_value i (split_value "-" v)).

Definition bound (i : nat) (v : value) : value :=
  cast_value (DecimalType 4 1) (item_value i (split_value "-" v)).

Definition split_interval (v : value) : value * value := (bound 0 v, bound 1 v).

(** Whether lines 217-218 come to an end on an interval cell. *)
Definition succeeds {A : Type} (r : result A) : bool :=
  match r with
  | Ok _ => true
  | Failed _ => false
  end.

Definition interval_defined (v : value) : bool :=
  succeeds (bound_cell 0 v) && succeeds (bound_cell 1 v).

(** Whether one of the two casts raises on an interval cell. *)
Definition raises {A : Type} (r : result A) : bool :=
  match r with
  | Failed ArithmeticException => true
  | _ => false
  end.

Definition interval_raises (v : value) : bool :=
  raises (bound_cell 0 v) || raises (bound_cell 1 v).

(** Lines 236 and 240 on a cell of the vaccine column. *)
Definition vaccine_group (v : value) : value :=
  let g := item_value 0 (split_value " - " v) in
  when_value (like_value "MEN-C%" g) (VString "MEN-C") g.

(** ** Reference readings

    Definitions the properties are stated with. *)

(** Whether the last character of [s] is a word character; [p] for the
    empty string. *)
Definition ends_in_word (p : bool) (s : string) : bool :=
  fold_left (fun _ c => is_word c) (list_ascii_of_string s) p.

(** The text before the first occurrence of [pattern], the whole string
    when there is none. *)
Definition before_first (pattern s : string) : string :=
  match index 0 pattern s with
  | Some n => substring 0 n s
  | None => s
  end.

(** Section 4.4 of the specification read to the letter: the interval is
    cut once, at its first [pattern], into what precedes and what follows
    it. *)
Definition split_first (pattern s : string) : list string :=
  match index 0 pattern s with
  | Some n =>
      [substring 0 n s; substring (n + length pattern) (length s) s]
  | None => [s]
  end.

Definition split_first_value (pattern : string) (v : value) : value :=
  match v with
  | VString s => VArray (split_first pattern s)
  | _ => VNull
  end.

Definition split_interval_first (v : value) : value * value :=
  (cast_value (DecimalType 4 1) (item_value 0 (split_first_value "-" v)),
   cast_value (DecimalType 4 1) (item_value 1 (split_first_value "-" v))).

(** The cast of a piece of text to [decimal(4, 1)]: what it comes to, and
    its value where it has one. *)
Definition to_decimal_cell (s : string) : result value :=
  cast_cell StringType (DecimalType 4 1) (VString s).

Definition to_decimal (s : string) : value :=
  cast_value (DecimalType 4 1) (VString s).

(** A cell of type [decimal(p, s)]: null, or a number of scale [s] with at
    most [p] digits. *)
Definition is_decimal (p s : Z) (v : value) : Prop :=
  v = VNull \/ exists u, v = VDecimal u s /\ (Z.abs u < 10 ^ p)%Z.


(** The string without the occurrences of one character. *)
Fixpoint remove_char (x : ascii) (s : string) : string :=
  match s with
  | EmptyString => EmptyString
  | String c s' =>
      if Ascii.eqb x c then remove_char x s' else String c (remove_char x s')
  end.

(** The number a run of decimal digits writes, after the digits [acc]. *)
Fixpoint number_from (acc : Z) (s : string) : Z :=
  match s with
  | EmptyString => acc
  | String c s' => number_from (acc * 10 + digit_value c) s'
  end.

Definition number (s : string) : Z := number_from 0 s.

(** ** The data set of the notebook

    The file the notebook reads has seven columns; with schema inference
    the year is an integer, the coverage a double and the other columns are
    strings. *)

Record RawRow : Set := mkRawRow {
  raw_year : value;
  raw_zone : value;
  raw_vaccine : value;
  raw_eligible : value;
  raw_immunized : value;
  raw_coverage : value;
  raw_interval : value
}.

Definition raw_schema : Schema :=
  [("Year", IntegerType); ("Zone", StringType); ("Vaccine", StringType);
   ("# Eligible", StringType); ("# Immunized", StringType);
   ("% Coverage", DoubleType); ("95% CI", StringType)].

Definition raw_cells (r : RawRow) : Row :=
  [raw_year r; raw_zone r; raw_vaccine r; raw_eligible r; raw_immunized r;
   raw_coverage r; raw_interval r].

Definition raw_frame (rs : list RawRow) : DataFrame :=
  mkDataFrame raw_schema (map raw_cells rs).

(** The schema and the rows after each stage. *)

Definition renamed_schema : Schema :=
  [("year", IntegerType); ("zone", StringType); ("vaccine", StringType);
   ("no_eligible", StringType); ("no_immunized", StringType);
   ("pct_coverage", DoubleType); ("95_pct_ci", StringType)].

Definition numbers_schema : Schema :=
  [("year", IntegerType); ("zone", StringType); ("vaccine", StringType);
   ("no_eligible", IntegerType); ("no_immunized", IntegerType);
   ("pct_coverage", DoubleType); ("95_pct_ci", StringType)].

Definition numbers_cells (r : RawRow) : Row :=
  [raw_year r; raw_zone r; raw_vaccine r;
   coerce (raw_eligible r); coerce (raw_immunized r);
   raw_coverage r; raw_interval r].

Definition coverage_schema : Schema :=
  [("year", IntegerType); ("zone", StringType); ("vaccine", StringType);
   ("no_eligible", IntegerType); ("no_immunized", IntegerType);
   ("pct_coverage", DecimalType 4 1); ("95_pct_ci", StringType)].

Definition coverage_cells (r : RawRow) : Row :=
  [raw_year r; raw_zone r; raw_vaccine r;
   coerce (raw_eligible r); coerce (raw_immunized r);
   rescale (raw_coverage r); raw_interval r].

Definition bounds_schema : Schema :=
  [("year", IntegerType); ("zone", StringType); ("vaccine", StringType);
   ("no_eligible", IntegerType); ("no_immunized", IntegerType);
   ("pct_coverage", DecimalType 4 1);
   ("lower_95_pct_ci", DecimalType 4 1); ("upper_95_pct_ci", DecimalType 4 1)].

Definition bounds_cells (r : RawRow) : Row :=
  [raw_year r; raw_zone r; raw_vaccine r;
   coerce (raw_eligible r); coerce (raw_immunized r);
   rescale (raw_coverage r);
   fst (split_interval (raw_interval r)); snd (split_interval (raw_interval r))].

Definition canonical_schema : Schema :=
  [("year", IntegerType); ("zone", StringType); ("vaccine", StringType);
   ("no_eligible", IntegerType); ("no_immunized", IntegerType);
   ("pct_coverage", DecimalType 4 1);
   ("lower_95_pct_ci", DecimalType 4 1); ("upper_95_pct_ci", DecimalType 4 1);
   ("vaccine_group", StringType)].

(** The canonical row of a raw row, cell by cell. *)
Definition canonical_cells (r : RawRow) : Row :=
  [raw_year r; raw_zone r; raw_vaccine r;
   coerce (raw_eligible r); coerce (raw_immunized r);
   rescale (raw_coverage r);
   fst (split_interval (raw_interval r)); snd (split_interval (raw_interval r));
   vaccine_group (raw_vaccine r)].

(** The row of the end-to-end scenario. *)
Definition scenario_row : RawRow :=
  mkRawRow (VInt 2018) (VString "Central") (VString "HBV - Dose 1")
           (VString "1,200") (VString "1,050") (VDouble 0.875%float)
           (VString "82.0-92.0").

Definition scenario_result : DataFrame :=
  mkDataFrame canonical_schema
    [[VInt 2018; VString "Central"; VString "HBV - Dose 1";
      VInt 1200; VInt 1050; VDecimal 875 1;
      VDecimal 820 1; VDecimal 920 1; VString "HBV"]].

(** The order of two decimals as numbers ([BigDecimal.compareTo]): the
    unscaled values are compared once both are brought to the larger
    scale. *)
Definition BigDecimal_le (a b : BigDecimal) : Prop :=
  let m := Z.max (scale a) (scale b) in
  (unscaledValue a * 10 ^ (m - scale a) <= unscaledValue b * 10 ^ (m - scale b))%Z.

(** The column at place [i] of a frame: its name and type, and its cell in
    every row. *)
Definition column_at (i : nat) (df : DataFrame)
  : option (string * DataType) * list (option value) :=
  (nth_error (schema df) i, map (fun row => nth_error row i) (rows df)).

(** A row whose interval has its bounds the wrong way round, and one whose
    coverage is already a percentage. *)
Definition inverted_row : RawRow :=
  mkRawRow (VInt 2018) (VString "Central") (VString "HBV - Dose 1")
           (VString "1,200") (VString "1,050") (VDouble 0.875%float)
           (VString "95.0-80.0").

Definition percent_row : RawRow :=
  mkRawRow (VInt 2018) (VString "Central") (VString "HBV - Dose 1")
           (VString "1,200") (VString "1,050") (VDouble 87.5%float)
           (VString "82.0-92.0").

(** A row whose upper bound has an exponent out of the engine's reach, one
    whose lower bound is negative, and one whose negative lower bound has
    four digits before the decimal point. *)
Definition overflow_row : RawRow :=
  mkRawRow (VInt 2018) (VString "Central") (VString "HBV - Dose 1")
           (VString "1,200") (VString "1,050") (VDouble 0.875%float)
           (VString "82.0-1e2147483647").

Definition negative_row : RawRow :=
  mkRawRow (VInt 2018) (VString "Central") (VString "HBV - Dose 1")
           (VString "1,200") (VString "1,050") (VDouble 0.875%float)
           (VString "-5.0-10.0").

Definition wide_row : RawRow :=
  mkRawRow (VInt 2018) (VString "Central") (VString "HBV - Dose 1")
           (VString "1,200") (VString "1,050") (VDouble 0.875%float)
           (VString "-1000.0-2000.0").


(** The number with the opposite sign. *)
Definition negated (d : BigDecimal) : BigDecimal :=
  mkBigDecimal (- unscaledValue d) (scale d).

(** The scenario's frame once its columns are renamed, and once its counts
    are numbers. *)
Definition renamed_scenario : DataFrame := rename_columns (raw_frame [scenario_row]).

Definition converted_scenario : DataFrame :=
  mkDataFrame numbers_schema
    [[VInt 2018; VString "Central"; VString "HBV - Dose 1"; VInt 1200; VInt 1050;
      VDouble 0.875%float; VString "82.0-92.0"]].

(** ** Further reference readings *)

(** Whether a name begins with [%] or [#]. *)
Definition starts_with_symbol (s : string) : bool :=
  match s with
  | EmptyString => false
  | String c _ => is_pct_or_hash c
  end.



(** The segments with the separator put back between them. *)
Fixpoint join (sep : string) (segs : list string) : string :=
  match segs with
  | [] => EmptyString
  | [seg] => seg
  | seg :: segs' => seg ++ sep ++ join sep segs'
  end.

(** The string without its first [k] characters. *)
Fixpoint skip_chars (k : nat) (s : string) : string :=
  match k, s with
  | S k', String _ s' => skip_chars k' s'
  | _, _ => s
  end.

(** * Properties *)

(** ** Characters *)

Ltac each_char c := destruct c as [[] [] [] [] [] [] [] []].

Lemma lower_char_idempotent (c : ascii) : lower_char (lower_char c) = lower_char c.
Proof. each_char c; reflexivity. Qed.

Lemma lower_char_not_special (c : ascii) :
  is_special c = false -> is_special (lower_char c) = false.
Proof. each_char c; intro H; try reflexivity; discriminate H. Qed.

Lemma special_not_word (c : ascii) : is_special c = true -> is_word c = false.
Proof. each_char c; intro H; try reflexivity; discriminate H. Qed.

Lemma pct_or_hash_special (c : ascii) :
  is_pct_or_hash c = true -> is_special c = true.
Proof. each_char c; intro H; try reflexivity; discriminate H. Qed.

Lemma replace_special_canonical (c : ascii) :
  is_special c = true -> is_canonical (lower (replace_special_chars c)) = true.
Proof. each_char c; intro H; try reflexivity; discriminate H. Qed.

(** ** Renaming *)

Lemma lower_app (a b : string) : lower (a ++ b) = lower a ++ lower b.
Proof. induction a as [|c a IH]; simpl; [reflexivity | now rewrite IH]. Qed.

Lemma is_canonical_app (a b : string) :
  is_canonical (a ++ b) = is_canonical a && is_canonical b.
Proof.
  induction a as [|c a IH]; simpl; [reflexivity|].
  rewrite IH. now rewrite andb_assoc.
Qed.

Lemma app_assoc_string (a b c : string) : (a ++ b) ++ c = a ++ (b ++ c).
Proof. induction a as [|x a IH]; simpl; [reflexivity | now rewrite IH]. Qed.

Lemma lower_sub_special_canonical (s : string) :
  is_canonical (lower (sub_special s)) = true.
Proof.
  induction s as [|c s IH]; simpl; [reflexivity|].
  destruct (is_special c) eqn:E.
  - rewrite lower_app, is_canonical_app, IH, replace_special_canonical; auto.
  - simpl. rewrite IH, lower_char_idempotent, Ascii.eqb_refl.
    now rewrite lower_char_not_special.
Qed.

Lemma to_snake_case_canonical (h : string) : is_canonical (to_snake_case h) = true.
Proof. apply lower_sub_special_canonical. Qed.

Lemma canonical_cons (c : ascii) (s : string) :
  is_canonical (String c s) = true ->
  is_special c = false /\ lower_char c = c /\ is_canonical s = true.
Proof.
  simpl. intro H.
  apply andb_prop in H as [H Hs]. apply andb_prop in H as [Hc Hl].
  apply negb_true_iff in Hc. apply Ascii.eqb_eq in Hl. auto.
Qed.

Lemma not_special_not_pct_or_hash (c : ascii) :
  is_special c = false -> is_pct_or_hash c = false.
Proof.
  intro H. destruct (is_pct_or_hash c) eqn:E; [|reflexivity].
  apply pct_or_hash_special in E. congruence.
Qed.

Lemma sub_word_symbol_plain (s : string) :
  has_special s = false -> sub_word_symbol s = s.
Proof.
  induction s as [|c tl IH]; [reflexivity|].
  simpl has_special. intro H. apply orb_false_elim in H as [Hc Htl].
  destruct tl as [|d rest]; [reflexivity|].
  assert (Hd : is_pct_or_hash d = false).
  { simpl in Htl. apply orb_false_elim in Htl as [Hd _].
    now apply not_special_not_pct_or_hash. }
  change (sub_word_symbol (String c (String d rest)))
    with (if is_word c && is_pct_or_hash d
          then String c (String " " (String d (sub_word_symbol rest)))
          else String c (sub_word_symbol (String d rest))).
  rewrite Hd, andb_false_r. now rewrite IH.
Qed.

Lemma sub_special_plain (s : string) :
  has_special s = false -> sub_special s = s.
Proof.
  induction s as [|c s IH]; simpl; [reflexivity|].
  intro H. apply orb_false_elim in H as [Hc Hs].
  rewrite Hc. now rewrite IH.
Qed.

Lemma canonical_plain (s : string) :
  is_canonical s = true -> has_special s = false /\ lower s = s.
Proof.
  induction s as [|c s IH]; [now split|].
  intro H. apply canonical_cons in H as (Hc & Hl & Hs).
  destruct (IH Hs) as [H1 H2]. simpl. rewrite Hc, H1, Hl, H2. now split.
Qed.

Lemma plain_lowered (h : string) :
  has_special h = false -> to_snake_case h = lower h.
Proof.
  intro H. unfold to_snake_case.
  now rewrite (sub_word_symbol_plain h H), (sub_special_plain h H).
Qed.

(** C3 -- the header canonicalization is idempotent: renaming a name that
    [to_snake_case] produced gives the same name again. *)
Theorem to_snake_case_idempotent (h : string) :
  to_snake_case (to_snake_case h) = to_snake_case h.
Proof.
  destruct (canonical_plain _ (to_snake_case_canonical h)) as [Hplain Hlow].
  rewrite (plain_lowered _ Hplain). exact Hlow.
Qed.

Lemma lower_replace_special (c : ascii) :
  is_special c = true -> lower (replace_special_chars c) = replace_special_chars c.
Proof. each_char c; intro H; try reflexivity; discriminate H. Qed.

Lemma word_not_special (c : ascii) : is_word c = true -> is_special c = false.
Proof.
  intro H. destruct (is_special c) eqn:E; [|reflexivity].
  apply special_not_word in E. congruence.
Qed.

Lemma snake_from_head (p : bool) (c : ascii) (s : string) :
  is_pct_or_hash c = false -> snake_from p (String c s) = snake_from false (String c s).
Proof. intro H. simpl. now rewrite H. Qed.

Lemma sub_word_symbol_cons2 (c d : ascii) (rest : string) :
  sub_word_symbol (String c (String d rest)) =
  if is_word c && is_pct_or_hash d
  then String c (String " " (String d (sub_word_symbol rest)))
  else String c (sub_word_symbol (String d rest)).
Proof. reflexivity. Qed.

Lemma sub_special_cons (c : ascii) (s : string) :
  lower (sub_special (String c s)) =
  (if is_special c then replace_special_chars c else String (lower_char c) EmptyString)
  ++ lower (sub_special s).
Proof.
  simpl. destruct (is_special c) eqn:E.
  - now rewrite lower_app, lower_replace_special.
  - reflexivity.
Qed.

Lemma snake_from_cons (p : bool) (c : ascii) (s : string) :
  snake_from p (String c s) =
  (if is_pct_or_hash c && p then "_" else EmptyString)
  ++ (if is_special c then replace_special_chars c else String (lower_char c) EmptyString)
  ++ snake_from (is_word c) s.
Proof. reflexivity. Qed.

Lemma one_pass_bounded (n : nat) :
  forall s, (length s <= n)%nat ->
            lower (sub_special (sub_word_symbol s)) = snake_from false s.
Proof.
  induction n as [|n IH]; intros s Hlen.
  - destruct s; [reflexivity | simpl in Hlen; lia].
  - destruct s as [|c tl]; [reflexivity|].
    destruct tl as [|d rest].
    + change (sub_word_symbol (String c EmptyString)) with (String c EmptyString).
      rewrite sub_special_cons, snake_from_cons, andb_false_r. reflexivity.
    + rewrite sub_word_symbol_cons2.
      destruct (is_word c && is_pct_or_hash d) eqn:E.
      * apply andb_prop in E as [Hw Hd].
        pose proof (word_not_special c Hw) as Hc.
        pose proof (pct_or_hash_special d Hd) as Hds.
        rewrite sub_special_cons, Hc.
        rewrite sub_special_cons. change (is_special " ") with true.
        rewrite sub_special_cons, Hds.
        rewrite (IH rest) by (simpl in Hlen; lia).
        rewrite snake_from_cons, andb_false_r, Hc, Hw.
        rewrite snake_from_cons, Hd, Hds, (special_not_word d Hds).
        reflexivity.
      * rewrite sub_special_cons.
        rewrite (IH (String d rest)) by (simpl in Hlen |- *; lia).
        rewrite (snake_from_cons false c), andb_false_r.
        simpl (EmptyString ++ _). f_equal.
        destruct (is_word c) eqn:Hw; [|reflexivity].
        simpl in E. symmetry. now apply snake_from_head.
Qed.

Example snake_coverage : to_snake_case "% Coverage" = "pct_coverage".
Proof. reflexivity. Qed.

Example snake_eligible : to_snake_case "# Eligible" = "no_eligible".
Proof. reflexivity. Qed.

Example snake_interval : to_snake_case "95% CI" = "95_pct_ci".
Proof. reflexivity. Qed.

(** The two regular-expression passes and the lower-casing amount to the
    one-pass reading. *)
Lemma to_snake_case_one_pass (h : string) : to_snake_case h = snake_from false h.
Proof. apply (one_pass_bounded (length h)). lia. Qed.

Lemma snake_from_app (s1 s2 : string) :
  forall p, snake_from p (s1 ++ s2) =
            snake_from p s1 ++ snake_from (ends_in_word p s1) s2.
Proof.
  induction s1 as [|c s1 IH]; intro p; [reflexivity|].
  change (String c s1 ++ s2) with (String c (s1 ++ s2)).
  rewrite !snake_from_cons, IH, !app_assoc_string. reflexivity.
Qed.

Lemma rename_cols_nth (cols : list string) :
  forall i, nth_error (rename_cols cols) i = option_map to_snake_case (nth_error cols i).
Proof.
  induction cols as [|c cols IH]; intros [|i]; simpl; auto.
Qed.

(** C9 -- the header canonicalizer is a function on every string; applied
    to the column names it gives as many names in the same order, the name
    at each place being [to_snake_case] of the name that was there; a name
    without [#], [%] and space is only lower-cased, and in any name a
    character other than these three appears lower-cased at its place
    between the renamings of what precedes and of what follows it. *)
Theorem rename_cols_pointwise :
  (forall cols, List.length (rename_cols cols) = List.length cols)
  /\ (forall cols i,
        nth_error (rename_cols cols) i = option_map to_snake_case (nth_error cols i))
  /\ (forall h, has_special h = false -> to_snake_case h = lower h)
  /\ (forall s1 c s2,
        is_special c = false ->
        to_snake_case (s1 ++ String c s2)
        = to_snake_case s1 ++ String (lower_char c) (snake_from (is_word c) s2)).
Proof.
  split; [intro cols; apply length_map|].
  split; [intros cols i; apply rename_cols_nth|].
  split; [apply plain_lowered|].
  intros s1 c s2 Hc.
  rewrite !to_snake_case_one_pass, snake_from_app, snake_from_cons, Hc.
  rewrite (not_special_not_pct_or_hash c Hc). reflexivity.
Qed.

(** ** The stages on the notebook's columns *)

Lemma traverse_map {A B C : Type} (f : B -> result C) (g : A -> B)
  (l : list A) :
  traverse f (map g l) = traverse (fun x => f (g x)) l.
Proof.
  induction l as [|x l IH]; [reflexivity|].
  cbn [map traverse]. now rewrite IH.
Qed.

Lemma traverse_Ok {A B : Type} (h : A -> B) (l : list A) :
  traverse (fun x => Ok (h x)) l = Ok (map h l).
Proof.
  induction l as [|x l IH]; [reflexivity|].
  cbn [map traverse bind]. now rewrite IH.
Qed.

Lemma traverse_ext_in {A B : Type} (f g : A -> result B) (l : list A) :
  (forall x, In x l -> f x = g x) -> traverse f l = traverse g l.
Proof.
  induction l as [|x l IH]; intro H; [reflexivity|].
  cbn [traverse]. rewrite (H x (or_introl eq_refl)).
  rewrite IH; [reflexivity|]. intros y Hy. apply H. now right.
Qed.

Lemma traverse_length {A B : Type} (f : A -> result B) (l : list A) :
  forall l', traverse f l = Ok l' -> List.length l' = List.length l.
Proof.
  induction l as [|x l IH]; intros l'; cbn [traverse].
  - now intros [= <-].
  - destruct (f x) as [y|]; [|discriminate]. cbn [bind].
    destruct (traverse f l) as [ys|]; [|discriminate]. cbn [bind].
    intros [= <-]. cbn [List.length]. now rewrite (IH ys eq_refl).
Qed.

Lemma traverse_map_inv {A B C : Type} (f : A -> result B) (p : B -> C)
  (q : A -> C) (l : list A) :
  (forall x y, f x = Ok y -> p y = q x) ->
  forall l', traverse f l = Ok l' -> map p l' = map q l.
Proof.
  intro H. induction l as [|x l IH]; intros l'; cbn [traverse].
  - now intros [= <-].
  - destruct (f x) as [y|] eqn:E; [|discriminate]. cbn [bind].
    destruct (traverse f l) as [ys|]; [|discriminate]. cbn [bind].
    intros [= <-]. cbn [map]. now rewrite (H x y E), (IH ys eq_refl).
Qed.

Lemma traverse_failed {A B : Type} (f : A -> result B) (l : list A) (x : A)
  (e : error) :
  In x l -> f x = Failed e -> exists e', traverse f l = Failed e'.
Proof.
  induction l as [|y l IH]; intros Hin Hf; [destruct Hin|].
  cbn [traverse]. destruct Hin as [->|Hin].
  - rewrite Hf. now exists e.
  - destruct (f y) as [b|e0]; [|now exists e0]. cbn [bind].
    destruct (IH Hin Hf) as [e' ->]. now exists e'.
Qed.

Lemma withColumn_map {A : Type} (name : string) (c : Column) (sch : Schema)
  (g : A -> Row) (rs : list A) :
  withColumn name c (mkDataFrame sch (map g rs))
  = bind (c sch) (fun c' =>
      if existsb (fun n => resolver n name) (map fst sch)
      then
        bind (traverse
                (fun r => bind (snd c' (g r))
                            (fun v => Ok (replace_cells (map fst sch) name v (g r))))
                rs)
             (fun rows' =>
                Ok (mkDataFrame
                      (map (fun f => if resolver (fst f) name
                                     then (name, fst c') else f) sch)
                      rows'))
      else
        bind (traverse (fun r => bind (snd c' (g r))
                                   (fun v => Ok (g r ++ [v])%list)) rs)
             (fun rows' => Ok (mkDataFrame (sch ++ [(name, fst c')])%list rows'))).
Proof.
  unfold withColumn, columns. cbn [schema rows].
  destruct (c sch); [|reflexivity]. cbn [bind]. now rewrite !traverse_map.
Qed.

Lemma drop_map {A : Type} (name : string) (sch : Schema) (g : A -> Row)
  (rs : list A) :
  drop name (mkDataFrame sch (map g rs))
  = mkDataFrame (drop_cells (map fst sch) name sch)
                (map (fun r => drop_cells (map fst sch) name (g r)) rs).
Proof. unfold drop, columns. cbn [schema rows]. now rewrite map_map. Qed.

(** The branch taken by [when_otherwise] is the value of [when_value]. *)
Lemma when_Ok (b x y : value) :
  match b with
  | VBool true => Ok x
  | _ => Ok y
  end = Ok (when_value b x y).
Proof. destruct b as [| | | | | |[|]]; reflexivity. Qed.

Lemma traverse_when {A C : Type} (b x y : A -> value) (k : A -> value -> C)
  (l : list A) :
  traverse (fun r => bind match b r with
                          | VBool true => Ok (x r)
                          | _ => Ok (y r)
                          end
                          (fun v => Ok (k r v))) l
  = Ok (map (fun r => k r (when_value (b r) (x r) (y r))) l).
Proof.
  rewrite <- traverse_Ok. apply traverse_ext_in.
  intros r _. now rewrite when_Ok.
Qed.

(** Evaluates the analysis of a stage and leaves the cells as they are. *)
Ltac analyse :=
  cbn - [cast_value replace_value split_value item_value like_value when_value
         multiply_double int_cell_to_double withColumn drop traverse];
  rewrite ?traverse_Ok, ?traverse_when; cbn [bind].

(** Lines 169-174: the seven columns get their canonical names; no cell
    changes. *)
Lemma rename_columns_raw (rs : list RawRow) :
  rename_columns (raw_frame rs) = mkDataFrame renamed_schema (map raw_cells rs).
Proof. reflexivity. Qed.

(** Lines 186-189: the two count columns become [coerce] of their cells. *)
Lemma convert_numbers_cells (rs : list RawRow) :
  convert_numbers (mkDataFrame renamed_schema (map raw_cells rs))
  = Ok (mkDataFrame numbers_schema (map numbers_cells rs)).
Proof.
  unfold convert_numbers, num_cols. cbn [fold_left bind].
  rewrite withColumn_map. analyse. rewrite withColumn_map. analyse.
  reflexivity.
Qed.

(** Line 202: the coverage column becomes [rescale] of its cells. *)
Lemma rescale_coverage_cells (rs : list RawRow) :
  rescale_coverage (mkDataFrame numbers_schema (map numbers_cells rs))
  = Ok (mkDataFrame coverage_schema (map coverage_cells rs)).
Proof.
  unfold rescale_coverage. rewrite withColumn_map. analyse. reflexivity.
Qed.

(** A cast that comes to an end gives the value of [cast_value]. *)
Lemma cast_cell_value (from to : DataType) (v x : value) :
  cast_cell from to v = Ok x -> x = cast_value to v.
Proof.
  unfold cast_cell. destruct (cast_error from to v); [discriminate|].
  now intros [= <-].
Qed.

Lemma cast_cell_succeeds (from to : DataType) (v : value) :
  succeeds (cast_cell from to v) = true ->
  cast_cell from to v = Ok (cast_value to v).
Proof.
  unfold cast_cell. destruct (cast_error from to v); [discriminate|reflexivity].
Qed.

Lemma bound_cell_value (i : nat) (v x : value) :
  bound_cell i v = Ok x -> x = bound i v.
Proof. apply cast_cell_value. Qed.

Lemma interval_defined_bounds (v : value) :
  interval_defined v = true ->
  bound_cell 0 v = Ok (bound 0 v) /\ bound_cell 1 v = Ok (bound 1 v).
Proof.
  unfold interval_defined. intro H. apply andb_prop in H as [H0 H1].
  split; now apply cast_cell_succeeds.
Qed.

Lemma traverse_bind_Ok {A B C : Type} (f : A -> result B) (h : A -> B)
  (k : A -> B -> C) (l : list A) :
  (forall x, In x l -> f x = Ok (h x)) ->
  traverse (fun x => bind (f x) (fun v => Ok (k x v))) l
  = Ok (map (fun x => k x (h x)) l).
Proof.
  intro H. rewrite <- traverse_Ok. apply traverse_ext_in.
  intros x Hx. now rewrite (H x Hx).
Qed.

Lemma traverse_bind_failed {A B C : Type} (f : A -> result B)
  (k : A -> B -> result C) (l : list A) (x : A) :
  In x l -> succeeds (f x) = false ->
  exists e, traverse (fun x => bind (f x) (k x)) l = Failed e.
Proof.
  intros Hin Hf. destruct (f x) as [b|e] eqn:E; [discriminate|].
  apply (traverse_failed _ l x e Hin). now rewrite E.
Qed.

(** Evaluates the analysis of a stage whose cast may fail and leaves the
    cells and their casts as they are. *)
Ltac analyse_cast :=
  cbn - [cast_value cast_cell replace_value split_value item_value like_value
         when_value multiply_double int_cell_to_double withColumn drop traverse].

(** Lines 217-219: the two bounds of [split_interval] are added, both
    taken from the interval cell, which is then dropped; every cast has to
    come to an end. *)
Lemma separate_interval_cells (rs : list RawRow) :
  forallb (fun r => interval_defined (raw_interval r)) rs = true ->
  separate_interval (mkDataFrame coverage_schema (map coverage_cells rs))
  = Ok (mkDataFrame bounds_schema (map bounds_cells rs)).
Proof.
  intro H. rewrite forallb_forall in H.
  unfold separate_interval.
  rewrite withColumn_map. analyse_cast.
  rewrite (traverse_bind_Ok _ (fun r => bound 0 (raw_interval r)));
    [|intros r Hr; apply (interval_defined_bounds _ (H r Hr))].
  cbn [bind]. rewrite withColumn_map. analyse_cast.
  rewrite (traverse_bind_Ok _ (fun r => bound 1 (raw_interval r)));
    [|intros r Hr; apply (interval_defined_bounds _ (H r Hr))].
  cbn [bind]. rewrite drop_map. analyse. reflexivity.
Qed.

(** A row whose casts do not come to an end makes the stage fail. *)
Lemma separate_interval_fails (rs : list RawRow) :
  forallb (fun r => interval_defined (raw_interval r)) rs = false ->
  exists e,
    separate_interval (mkDataFrame coverage_schema (map coverage_cells rs))
    = Failed e.
Proof.
  intro H. unfold separate_interval.
  rewrite withColumn_map. analyse_cast.
  destruct (forallb (fun r => succeeds (bound_cell 0 (raw_interval r))) rs)
    eqn:E0.
  - rewrite forallb_forall in E0.
    rewrite (traverse_bind_Ok _ (fun r => bound 0 (raw_interval r)));
      [|intros r Hr; apply cast_cell_succeeds, (E0 r Hr)].
    cbn [bind]. rewrite withColumn_map. analyse_cast.
    assert (exists r, In r rs /\ succeeds (bound_cell 1 (raw_interval r)) = false)
      as (r & Hr & Hf).
    { clear - H E0. induction rs as [|r rs IH]; [discriminate|].
      cbn [forallb] in H. unfold interval_defined in H at 1.
      rewrite (E0 r (or_introl eq_refl)) in H. cbn [andb] in H.
      destruct (succeeds (bound_cell 1 (raw_interval r))) eqn:E1.
      - destruct IH as (r' & Hr' & Hf'); [exact H| |].
        + intros x Hx. apply E0. now right.
        + exists r'. split; [now right|exact Hf'].
      - exists r. split; [now left|exact E1]. }
    destruct (traverse_bind_failed
                (fun r => cast_cell StringType (DecimalType 4 1)
                            (item_value 1 (split_value "-" (raw_interval r))))
                (fun r v => Ok [raw_year r; raw_zone r; raw_vaccine r;
                                coerce (raw_eligible r); coerce (raw_immunized r);
                                rescale (raw_coverage r); raw_interval r;
                                bound 0 (raw_interval r); v])
                rs r Hr Hf) as [e He].
    exists e. cbv beta in He. rewrite He. reflexivity.
  - assert (exists r, In r rs /\ succeeds (bound_cell 0 (raw_interval r)) = false)
      as (r & Hr & Hf).
    { clear - E0. induction rs as [|r rs IH]; [discriminate|].
      cbn [forallb] in E0. apply andb_false_iff in E0 as [E0|E0].
      - exists r. split; [now left|exact E0].
      - destruct (IH E0) as (r' & Hr' & Hf'). exists r'. split; [now right|exact Hf']. }
    destruct (traverse_bind_failed
                (fun r => cast_cell StringType (DecimalType 4 1)
                            (item_value 0 (split_value "-" (raw_interval r))))
                (fun r v => Ok [raw_year r; raw_zone r; raw_vaccine r;
                                coerce (raw_eligible r); coerce (raw_immunized r);
                                rescale (raw_coverage r); raw_interval r; v])
                rs r Hr Hf) as [e He].
    exists e. cbv beta in He. rewrite He. reflexivity.
Qed.

(** Lines 236-240: the group column is added, [vaccine_group] of the
    vaccine cell. *)
Lemma group_vaccines_cells (rs : list RawRow) :
  group_vaccines (mkDataFrame bounds_schema (map bounds_cells rs))
  = Ok (mkDataFrame canonical_schema (map canonical_cells rs)).
Proof.
  unfold group_vaccines.
  rewrite withColumn_map. analyse. rewrite withColumn_map. analyse.
  reflexivity.
Qed.

(** On the notebook's data set the transformation works row by row: each
    raw row becomes its canonical row, when the casts of its interval come
    to an end. *)
Lemma transform_raw_frame (rs : list RawRow) :
  forallb (fun r => interval_defined (raw_interval r)) rs = true ->
  transform (raw_frame rs)
  = Ok (mkDataFrame canonical_schema (map canonical_cells rs)).
Proof.
  intro H.
  unfold transform. rewrite rename_columns_raw, convert_numbers_cells.
  cbn [bind]. rewrite rescale_coverage_cells. cbn [bind].
  rewrite (separate_interval_cells rs H). cbn [bind]. apply group_vaccines_cells.
Qed.

Lemma transform_raw_frame_fails (rs : list RawRow) :
  forallb (fun r => interval_defined (raw_interval r)) rs = false ->
  exists e, transform (raw_frame rs) = Failed e.
Proof.
  intro H.
  unfold transform. rewrite rename_columns_raw, convert_numbers_cells.
  cbn [bind]. rewrite rescale_coverage_cells. cbn [bind].
  destruct (separate_interval_fails rs H) as [e ->]. now exists e.
Qed.

(** A cast that raises has not come to an end. *)
Lemma raises_not_defined (rs : list RawRow) :
  existsb (fun r => interval_raises (raw_interval r)) rs = true ->
  forallb (fun r => interval_defined (raw_interval r)) rs = false.
Proof.
  induction rs as [|r rs IH]; [discriminate|].
  cbn [existsb forallb]. intro H. apply orb_prop in H as [H|H].
  - apply andb_false_iff. left. revert H.
    unfold interval_raises, interval_defined.
    destruct (bound_cell 0 (raw_interval r)) as [x|[]];
      destruct (bound_cell 1 (raw_interval r)) as [y|[]];
      intro H; try reflexivity; discriminate H.
  - apply andb_false_iff. right. exact (IH H).
Qed.

(** A row with a cast that raises makes the interval stage, and with it
    the transformation, fail. *)
Lemma separate_interval_raises (rs : list RawRow) :
  existsb (fun r => interval_raises (raw_interval r)) rs = true ->
  exists e,
    separate_interval (mkDataFrame coverage_schema (map coverage_cells rs))
    = Failed e.
Proof. intro H. exact (separate_interval_fails rs (raises_not_defined rs H)). Qed.

Lemma transform_raises (rs : list RawRow) :
  existsb (fun r => interval_raises (raw_interval r)) rs = true ->
  exists e, transform (raw_frame rs) = Failed e.
Proof. intro H. exact (transform_raw_frame_fails rs (raises_not_defined rs H)). Qed.

(** ** Splitting and matching *)

Lemma prefix_cons (a b : ascii) (p s : string) :
  prefix (String a p) (String b s) = Ascii.eqb a b && prefix p s.
Proof.
  change (prefix (String a p) (String b s))
    with (match ascii_dec a b with left _ => prefix p s | right _ => false end).
  destruct (ascii_dec a b) as [->|Hne].
  - now rewrite Ascii.eqb_refl.
  - apply Ascii.eqb_neq in Hne. now rewrite Hne.
Qed.

Lemma prefix_empty (s : string) : prefix EmptyString s = true.
Proof. destruct s; reflexivity. Qed.

Lemma split_from_dash (c : ascii) (s : string) :
  split_from "-" 0 (String c s) =
  if Ascii.eqb "-" c then (EmptyString, split_all "-" s)
  else (String c (fst (split_from "-" 0 s)), snd (split_from "-" 0 s)).
Proof.
  change (split_from "-" 0 (String c s))
    with (if prefix "-" (String c s)
          then let (seg, segs) := split_from "-" 0 s in (EmptyString, seg :: segs)
          else let (seg, segs) := split_from "-" 0 s in (String c seg, segs)).
  rewrite prefix_cons, prefix_empty, andb_true_r.
  unfold split_all. destruct (Ascii.eqb "-" c); destruct (split_from "-" 0 s);
    reflexivity.
Qed.

Lemma mentions_cons (c d : ascii) (s : string) :
  mentions c (String d s) = Ascii.eqb c d || mentions c s.
Proof. reflexivity. Qed.

Lemma split_all_plain (a : string) :
  mentions "-" a = false -> split_all "-" a = [a].
Proof.
  unfold split_all. induction a as [|c a IH]; [reflexivity|].
  rewrite mentions_cons. intro H. apply orb_false_elim in H as [Hc Ha].
  rewrite split_from_dash, Hc. specialize (IH Ha).
  destruct (split_from "-" 0 a) as [seg segs]. simpl. congruence.
Qed.

Lemma split_all_dash (a rest : string) :
  mentions "-" a = false ->
  split_all "-" (a ++ String "-" rest) = a :: split_all "-" rest.
Proof.
  intro H. unfold split_all at 1. induction a as [|c a IH].
  - simpl append. rewrite split_from_dash. reflexivity.
  - rewrite mentions_cons in H. apply orb_false_elim in H as [Hc Ha].
    change (String c a ++ String "-" rest) with (String c (a ++ String "-" rest)).
    rewrite split_from_dash, Hc. specialize (IH Ha).
    destruct (split_from "-" 0 (a ++ String "-" rest)) as [seg segs].
    simpl. congruence.
Qed.

Lemma like_any (s : string) : like_match "%" s = true.
Proof. induction s as [|c s IH]; [reflexivity|]. simpl in *. exact IH. Qed.

Lemma like_literal_prefix (p : string) :
  mentions "%" p = false -> mentions "_" p = false ->
  forall s, like_match (p ++ "%") s = prefix p s.
Proof.
  induction p as [|a p IH]; intros Hp Hu s.
  - rewrite prefix_empty. apply like_any.
  - rewrite mentions_cons in Hp, Hu.
    apply orb_false_elim in Hp as [Hp1 Hp2].
    apply orb_false_elim in Hu as [Hu1 Hu2].
    rewrite Ascii.eqb_sym in Hp1. rewrite Ascii.eqb_sym in Hu1.
    change (like_match (String a p ++ "%") s)
      with ((if Ascii.eqb a "%" then
               fix any (s : string) : bool :=
                 like_match (p ++ "%") s
                 || match s with
                    | EmptyString => false
                    | String _ s' => any s'
                    end
             else if Ascii.eqb a "_" then
               fun s => match s with
                        | EmptyString => false
                        | String _ s' => like_match (p ++ "%") s'
                        end
             else
               fun s => match s with
                        | EmptyString => false
                        | String c s' => Ascii.eqb c a && like_match (p ++ "%") s'
                        end) s).
    rewrite Hp1, Hu1. destruct s as [|c s]; [reflexivity|].
    rewrite prefix_cons, (IH Hp2 Hu2). now rewrite Ascii.eqb_sym.
Qed.

Lemma first_segment (pattern s : string) :
  pattern <> EmptyString ->
  fst (split_from pattern 0 s) = before_first pattern s.
Proof.
  intro Hp. unfold before_first. induction s as [|c s IH].
  - destruct pattern; [congruence | reflexivity].
  - change (split_from pattern 0 (String c s))
      with (if prefix pattern (String c s)
            then let (seg, segs) := split_from pattern (length pattern - 1) s in
                 (EmptyString, seg :: segs)
            else let (seg, segs) := split_from pattern 0 s in
                 (String c seg, segs)).
    change (index 0 pattern (String c s))
      with (if prefix pattern (String c s) then Some 0%nat
            else match index 0 pattern s with
                 | Some n => Some (S n)
                 | None => None
                 end).
    destruct (prefix pattern (String c s)).
    + destruct (split_from pattern (length pattern - 1) s). reflexivity.
    + destruct (split_from pattern 0 s) as [seg segs]. simpl in IH. simpl fst.
      rewrite IH. destruct (index 0 pattern s); reflexivity.
Qed.

Lemma item_0_split (pattern s : string) :
  item_value 0 (split_value pattern (VString s))
  = VString (fst (split_from pattern 0 s)).
Proof.
  unfold split_value, split_all. destruct (split_from pattern 0 s). reflexivity.
Qed.

Lemma vaccine_group_string (s : string) :
  vaccine_group (VString s)
  = VString (if prefix "MEN-C" (before_first " - " s) then "MEN-C"
             else before_first " - " s).
Proof.
  unfold vaccine_group. rewrite item_0_split, first_segment by discriminate.
  unfold like_value, when_value.
  rewrite (like_literal_prefix "MEN-C") by reflexivity.
  destruct (prefix "MEN-C" (before_first " - " s)); reflexivity.
Qed.

(** C5 -- the last stage adds to every row the group label of its vaccine
    cell; the label of a vaccine name is the text before its first [" - "],
    or the whole name when it has none, and a label that begins with
    [MEN-C] is replaced by [MEN-C]; the four examples of the
    specification. *)
Theorem vaccine_group_label :
  (forall rs,
      group_vaccines (mkDataFrame bounds_schema (map bounds_cells rs))
      = Ok (mkDataFrame canonical_schema (map canonical_cells rs)))
  /\ (forall s,
      vaccine_group (VString s)
      = VString (if prefix "MEN-C" (before_first " - " s) then "MEN-C"
                 else before_first " - " s))
  /\ (forall s,
         index 0 " - " s = None ->
         vaccine_group (VString s)
         = VString (if prefix "MEN-C" s then "MEN-C" else s))
  /\ vaccine_group (VString "HBV - Dose 1") = VString "HBV"
  /\ vaccine_group (VString "HBV") = VString "HBV"
  /\ vaccine_group (VString "MEN-C-ACYW135") = VString "MEN-C"
  /\ vaccine_group (VString "MEN-C - Dose 2") = VString "MEN-C".
Proof.
  split; [exact group_vaccines_cells|].
  split; [exact vaccine_group_string|].
  split.
  - intros s H. rewrite vaccine_group_string. unfold before_first.
    now rewrite H.
  - repeat split; vm_compute; reflexivity.
Qed.

Lemma vaccine_group_label_witness :
  index 0 " - " "HBV" = None
  /\ vaccine_group (VString "HBV") = VString (if prefix "MEN-C" "HBV" then "MEN-C" else "HBV").
Proof.
  split; [reflexivity|].
  exact (proj1 (proj2 (proj2 vaccine_group_label)) "HBV" eq_refl).
Defined.

(** ** Decimal cells *)

Lemma changePrecision_bound (d : BigDecimal) (p s u : Z) :
  changePrecision d p s = Some u -> (Z.abs u < 10 ^ p)%Z.
Proof.
  unfold changePrecision.
  destruct (Z.abs (setScale_half_up d s) <? 10 ^ p)%Z eqn:E; [|discriminate].
  intro H. injection H as <-. now apply Z.ltb_lt.
Qed.

Lemma decimal_cell_is_decimal (d : BigDecimal) (p s : Z) :
  is_decimal p s (decimal_cell s (changePrecision d p s)).
Proof.
  destruct (changePrecision d p s) as [u|] eqn:E; [right | now left].
  exists u. split; [reflexivity | eapply changePrecision_bound; eauto].
Qed.

Lemma cast_is_decimal (p s : Z) (v : value) :
  is_decimal p s (cast_value (DecimalType p s) v).
Proof.
  destruct v; simpl; try (now left).
  - apply decimal_cell_is_decimal.
  - unfold double_to_decimal. destruct (double_to_BigDecimal x); [|now left].
    apply decimal_cell_is_decimal.
  - unfold string_to_decimal. destruct (parse_BigDecimal (trim s0)); [|now left].
    unfold BigDecimal_to_decimal.
    destruct (MAX_PRECISION <? wrap32 (precision b - scale b))%Z; [now left|].
    destruct (POWER_LIMIT <? - scale b)%Z;
      [destruct (unscaledValue b =? 0)%Z; now left|].
    destruct (POWER_LIMIT <? scale b)%Z; [now left|].
    pose proof (decimal_cell_is_decimal b p s) as H.
    destruct (changePrecision b p s); exact H.
Qed.

(** ** The interval *)

Lemma bound_string (i : nat) (s : string) :
  bound i (VString s)
  = match nth_error (split_all "-" s) i with
    | Some x => to_decimal x
    | None => VNull
    end.
Proof.
  unfold bound, split_value, item_value, to_decimal.
  destruct (nth_error (split_all "-" s) i); reflexivity.
Qed.

Lemma split_interval_two (a b : string) :
  mentions "-" a = false -> mentions "-" b = false ->
  split_interval (VString (a ++ String "-" b)) = (to_decimal a, to_decimal b).
Proof.
  intros Ha Hb. unfold split_interval.
  now rewrite !bound_string, (split_all_dash a b Ha), (split_all_plain b Hb).
Qed.

Lemma bound_cell_string (i : nat) (s : string) :
  bound_cell i (VString s)
  = match nth_error (split_all "-" s) i with
    | Some x => to_decimal_cell x
    | None => Ok VNull
    end.
Proof.
  unfold bound_cell, split_value, item_value, to_decimal_cell.
  destruct (nth_error (split_all "-" s) i); reflexivity.
Qed.

Lemma bound_cell_plain (a : string) :
  mentions "-" a = false ->
  bound_cell 0 (VString a) = to_decimal_cell a
  /\ bound_cell 1 (VString a) = Ok VNull.
Proof.
  intro H. now rewrite !bound_cell_string, (split_all_plain a H).
Qed.

Lemma bound_cell_two (a b : string) :
  mentions "-" a = false -> mentions "-" b = false ->
  bound_cell 0 (VString (a ++ String "-" b)) = to_decimal_cell a
  /\ bound_cell 1 (VString (a ++ String "-" b)) = to_decimal_cell b.
Proof.
  intros Ha Hb.
  now rewrite !bound_cell_string, (split_all_dash a b Ha), (split_all_plain b Hb).
Qed.

Lemma bound_cell_more (a b rest : string) :
  mentions "-" a = false -> mentions "-" b = false ->
  bound_cell 0 (VString (a ++ String "-" (b ++ String "-" rest)))
  = to_decimal_cell a
  /\ bound_cell 1 (VString (a ++ String "-" (b ++ String "-" rest)))
     = to_decimal_cell b.
Proof.
  intros Ha Hb.
  now rewrite !bound_cell_string, (split_all_dash a _ Ha), (split_all_dash b _ Hb).
Qed.

Lemma bound_cell_is_decimal (i : nat) (v x : value) :
  bound_cell i v = Ok x -> x = bound i v /\ is_decimal 4 1 x.
Proof.
  intro H. apply bound_cell_value in H. subst x.
  split; [reflexivity | apply cast_is_decimal].
Qed.

Lemma interval_defined_split (v : value) :
  interval_defined v = true ->
  bound_cell 0 v = Ok (fst (split_interval v))
  /\ bound_cell 1 v = Ok (snd (split_interval v)).
Proof. apply interval_defined_bounds. Qed.

(** ** Segments *)

Lemma mentions_app (c : ascii) (a b : string) :
  mentions c (a ++ b) = mentions c a || mentions c b.
Proof.
  induction a as [|x a IH]; [reflexivity|].
  change (String x a ++ b) with (String x (a ++ b)).
  now rewrite !mentions_cons, IH, orb_assoc.
Qed.

Lemma split_from_skip (pattern : string) (s : string) :
  forall k, split_from pattern k s = split_from pattern 0 (skip_chars k s).
Proof.
  induction s as [|c s IH]; intros [|k]; try reflexivity.
  change (split_from pattern (S k) (String c s)) with (split_from pattern k s).
  apply IH.
Qed.

Lemma skip_chars_length (s : string) :
  forall k, (length (skip_chars k s) <= length s)%nat.
Proof.
  induction s as [|c s IH]; intros [|k]; simpl; try lia.
  specialize (IH k). lia.
Qed.

Lemma prefix_skip (p : string) :
  forall s, prefix p s = true -> s = p ++ skip_chars (length p) s.
Proof.
  induction p as [|a p IH]; intros s H; [reflexivity|].
  destruct s as [|c s]; [discriminate H|].
  rewrite prefix_cons in H. apply andb_prop in H as [Hc Hp].
  apply Ascii.eqb_eq in Hc. subst c. simpl. f_equal. now apply IH.
Qed.

Lemma join_cons (sep : string) (c : ascii) (seg : string) (segs : list string) :
  join sep (String c seg :: segs) = String c (join sep (seg :: segs)).
Proof. destruct segs; reflexivity. Qed.

Lemma join_split_bounded (pattern : string) (n : nat) :
  pattern <> EmptyString ->
  forall s, (length s <= n)%nat -> join pattern (split_all pattern s) = s.
Proof.
  intro Hp. unfold split_all. induction n as [|n IH]; intros s Hlen.
  - destruct s; [reflexivity | simpl in Hlen; lia].
  - destruct s as [|c s]; [reflexivity|].
    change (split_from pattern 0 (String c s))
      with (if prefix pattern (String c s)
            then let (seg, segs) := split_from pattern (length pattern - 1) s in
                 (EmptyString, seg :: segs)
            else let (seg, segs) := split_from pattern 0 s in
                 (String c seg, segs)).
    destruct (prefix pattern (String c s)) eqn:E.
    + rewrite split_from_skip.
      pose proof (IH (skip_chars (length pattern - 1) s)) as H.
      pose proof (skip_chars_length s (length pattern - 1)) as Hs.
      simpl in Hlen. specialize (H ltac:(lia)).
      destruct (split_from pattern 0 (skip_chars (length pattern - 1) s))
        as [seg segs].
      change (join pattern (EmptyString :: seg :: segs))
        with (pattern ++ join pattern (seg :: segs)).
      rewrite H. rewrite (prefix_skip pattern _ E) at 1.
      destruct pattern as [|a p]; [congruence|].
      simpl. now rewrite Nat.sub_0_r.
    + pose proof (IH s) as H. simpl in Hlen. specialize (H ltac:(lia)).
      destruct (split_from pattern 0 s) as [seg segs].
      rewrite join_cons. now rewrite H.
Qed.

(** ** Bounds written without an exponent *)

Lemma length_app_string (a b : string) :
  length (a ++ b) = (length a + length b)%nat.
Proof. induction a as [|x a IH]; [reflexivity | simpl; now rewrite IH]. Qed.

Lemma join_part (sep : string) (c : ascii) (x : string) (l : list string) :
  In x l ->
  (mentions c x = true -> mentions c (join sep l) = true)
  /\ (length x <= length (join sep l))%nat.
Proof.
  induction l as [|y l IH]; intro H; [destruct H|].
  destruct l as [|z l].
  - destruct H as [->|[]]. split; [auto|]. cbn [join]. lia.
  - change (join sep (y :: z :: l)) with (y ++ sep ++ join sep (z :: l)).
    rewrite !mentions_app, !length_app_string.
    destruct H as [->|H].
    + split; [intros ->; reflexivity | lia].
    + destruct (IH H) as [Hm Hl]. split; [|lia].
      intro Hx. rewrite (Hm Hx). now rewrite !orb_true_r.
Qed.

(** A segment of an interval is a part of it. *)
Lemma segment_part (c : ascii) (s x : string) (i : nat) :
  nth_error (split_all "-" s) i = Some x ->
  (mentions c x = true -> mentions c s = true)
  /\ (length x <= length s)%nat.
Proof.
  intro H. apply nth_error_In in H.
  pose proof (join_part "-" c x _ H) as P.
  rewrite (join_split_bounded "-" (length s)) in P; [exact P | discriminate | lia].
Qed.

Lemma drop_leading_part (f : ascii -> bool) (c : ascii) (s : string) :
  (mentions c (drop_leading f s) = true -> mentions c s = true)
  /\ (length (drop_leading f s) <= length s)%nat.
Proof.
  induction s as [|x s [IH1 IH2]]; [split; [auto | reflexivity]|].
  cbn [drop_leading]. destruct (f x); [|split; [auto | lia]].
  rewrite mentions_cons. cbn [length]. split; [|lia].
  intro H. rewrite (IH1 H). apply orb_true_r.
Qed.

Lemma drop_trailing_part (f : ascii -> bool) (c : ascii) (s : string) :
  (mentions c (drop_trailing f s) = true -> mentions c s = true)
  /\ (length (drop_trailing f s) <= length s)%nat.
Proof.
  induction s as [|x s [IH1 IH2]]; [split; [auto | reflexivity]|].
  cbn [drop_trailing].
  destruct (f x && is_empty (drop_trailing f s)).
  - split; [discriminate | cbn [length]; lia].
  - rewrite !mentions_cons. cbn [length]. split; [|lia].
    intro H. apply orb_prop in H as [->|H]; [reflexivity|].
    rewrite (IH1 H). apply orb_true_r.
Qed.

Lemma trim_part (c : ascii) (s : string) :
  (mentions c (trim s) = true -> mentions c s = true)
  /\ (length (trim s) <= length s)%nat.
Proof.
  unfold trim.
  destruct (drop_trailing_part is_trimmed c (drop_leading is_trimmed s)) as [H1 H2].
  destruct (drop_leading_part is_trimmed c s) as [H3 H4].
  split; [auto | lia].
Qed.

Lemma read_digits_part (c : ascii) (s : string) :
  forall acc count,
    (mentions c (snd (read_digits acc count s)) = true -> mentions c s = true)
    /\ (count <= snd (fst (read_digits acc count s))
        <= count + Z.of_nat (length s))%Z
    /\ (length (snd (read_digits acc count s)) <= length s)%nat.
Proof.
  induction s as [|x s IH]; intros acc count; cbn [read_digits].
  - cbn. split; [auto|]. split; lia.
  - destruct (is_digit x).
    + destruct (IH (acc * 10 + digit_value x)%Z (count + 1)%Z) as (H1 & H2 & H3).
      rewrite mentions_cons. cbn [length]. split; [|split; lia].
      intro H. rewrite (H1 H). apply orb_true_r.
    + cbn [fst snd]. split; [auto|]. split; lia.
Qed.

Lemma read_exponent_plain (s : string) (e : Z) :
  mentions "e" s = false -> mentions "E" s = false ->
  read_exponent s = Some e -> e = 0%Z.
Proof.
  destruct s as [|x s]; [now intros _ _ [= <-]|].
  rewrite !mentions_cons. intros H1 H2.
  apply orb_false_elim in H1 as [H1 _]. apply orb_false_elim in H2 as [H2 _].
  cbn [read_exponent]. rewrite (Ascii.eqb_sym x "e"), (Ascii.eqb_sym x "E"), H1, H2.
  discriminate.
Qed.

(** A number written without an exponent has as many digits after its
    decimal point as are written. *)
Lemma parse_plain_scale (t : string) (d : BigDecimal) :
  mentions "e" t = false -> mentions "E" t = false ->
  parse_BigDecimal t = Some d ->
  (0 <= scale d <= Z.of_nat (length t))%Z.
Proof.
  intros He HE. unfold parse_BigDecimal.
  assert (Hs1 : (mentions "e" (snd (read_sign t)) = false
                 /\ mentions "E" (snd (read_sign t)) = false)
                /\ (length (snd (read_sign t)) <= length t)%nat).
  { destruct t as [|x t]; [now repeat split|].
    rewrite !mentions_cons in He, HE.
    apply orb_false_elim in He as [He1 He2].
    apply orb_false_elim in HE as [HE1 HE2].
    cbn [read_sign].
    destruct (Ascii.eqb x "-"); [cbn [snd length]; repeat split; auto; lia|].
    destruct (Ascii.eqb x "+"); cbn [snd length]; rewrite ?mentions_cons,
      ?He1, ?HE1; repeat split; auto; lia. }
  destruct (read_sign t) as [negative s1]. cbn [snd] in Hs1.
  destruct Hs1 as [[He1 HE1] Hl1].
  pose proof (read_digits_part "e" s1 0 0) as (Pe & _ & Pl).
  pose proof (read_digits_part "E" s1 0 0) as (PE & _ & _).
  destruct (read_digits 0 0 s1) as [[int_part int_count] s2].
  cbn [fst snd] in Pe, PE, Pl.
  assert (He2 : mentions "e" s2 = false)
    by (destruct (mentions "e" s2); [rewrite Pe in He1 by reflexivity;
                                     discriminate | reflexivity]).
  assert (HE2 : mentions "E" s2 = false)
    by (destruct (mentions "E" s2); [rewrite PE in HE1 by reflexivity;
                                     discriminate | reflexivity]).
  assert (H3 : forall r,
             r = match s2 with
                 | EmptyString => (int_part, 0%Z, s2)
                 | String c s2' =>
                     if Ascii.eqb c "." then read_digits int_part 0 s2'
                     else (int_part, 0%Z, s2)
                 end ->
             mentions "e" (snd r) = false /\ mentions "E" (snd r) = false
             /\ (0 <= snd (fst r) <= Z.of_nat (length s2))%Z).
  { intros r ->. destruct s2 as [|c s2']; [cbn; repeat split; auto; lia|].
    destruct (Ascii.eqb c ".");
      [|cbn [fst snd]; repeat split; auto; lia].
    rewrite !mentions_cons in He2, HE2.
    apply orb_false_elim in He2 as [_ He2].
    apply orb_false_elim in HE2 as [_ HE2].
    pose proof (read_digits_part "e" s2' int_part 0) as (Qe & Qc & _).
    pose proof (read_digits_part "E" s2' int_part 0) as (QE & _ & _).
    cbn [length]. repeat split; try lia.
    - destruct (mentions "e" (snd (read_digits int_part 0 s2')));
        [rewrite Qe in He2 by reflexivity; discriminate | reflexivity].
    - destruct (mentions "E" (snd (read_digits int_part 0 s2')));
        [rewrite QE in HE2 by reflexivity; discriminate | reflexivity]. }
  specialize (H3 _ eq_refl).
  destruct (match s2 with
            | EmptyString => (int_part, 0%Z, s2)
            | String c s2' =>
                if Ascii.eqb c "." then read_digits int_part 0 s2'
                else (int_part, 0%Z, s2)
            end) as [[significand frac_count] s3].
  cbn [fst snd] in H3. destruct H3 as (He3 & HE3 & Hc).
  destruct (int_count + frac_count =? 0)%Z; [discriminate|].
  destruct (read_exponent s3) as [e|] eqn:Ee; [|discriminate].
  apply (read_exponent_plain s3 e He3 HE3) in Ee. subst e.
  destruct (in_int32 (frac_count - 0)); [|discriminate].
  intros [= <-]. cbn [scale]. lia.
Qed.

(** The cast of a number whose scale is within reach comes to an end. *)
Lemma BigDecimal_to_decimal_within (p s : Z) (d : BigDecimal) :
  (0 <= scale d <= POWER_LIMIT)%Z ->
  match BigDecimal_to_decimal p s d with
  | CastOverflow | CastBeyond => False
  | _ => True
  end.
Proof.
  intro H. unfold BigDecimal_to_decimal, POWER_LIMIT in *.
  destruct (MAX_PRECISION <? wrap32 (precision d - scale d))%Z; [exact I|].
  destruct (536870912 <? - scale d)%Z eqn:E1; [apply Z.ltb_lt in E1; lia|].
  destruct (536870912 <? scale d)%Z eqn:E2; [apply Z.ltb_lt in E2; lia|].
  destruct (changePrecision d p s); exact I.
Qed.

Lemma to_decimal_cell_plain (x : string) :
  mentions "e" x = false -> mentions "E" x = false ->
  (Z.of_nat (length x) <= POWER_LIMIT)%Z ->
  to_decimal_cell x = Ok (to_decimal x).
Proof.
  intros He HE Hl.
  unfold to_decimal_cell, to_decimal, cast_cell, cast_error, string_to_decimal.
  destruct (parse_BigDecimal (trim x)) as [d|] eqn:Ep; [|reflexivity].
  destruct (trim_part "e" x) as [Te Tl]. destruct (trim_part "E" x) as [TE _].
  assert (He' : mentions "e" (trim x) = false)
    by (destruct (mentions "e" (trim x)); [rewrite Te in He by reflexivity;
                                          discriminate | reflexivity]).
  assert (HE' : mentions "E" (trim x) = false)
    by (destruct (mentions "E" (trim x)); [rewrite TE in HE by reflexivity;
                                          discriminate | reflexivity]).
  pose proof (parse_plain_scale _ _ He' HE' Ep) as Hs.
  pose proof (BigDecimal_to_decimal_within 4 1 d ltac:(lia)) as Hw.
  destruct (BigDecimal_to_decimal 4 1 d); try reflexivity; destruct Hw.
Qed.

(** An interval written without an exponent, and of a length within
    reach: both casts come to an end. *)
Lemma plain_interval_defined (s : string) :
  mentions "e" s = false -> mentions "E" s = false ->
  (Z.of_nat (length s) <= POWER_LIMIT)%Z ->
  interval_defined (VString s) = true.
Proof.
  intros He HE Hl.
  assert (H : forall i, succeeds (bound_cell i (VString s)) = true).
  { intro i. rewrite bound_cell_string.
    destruct (nth_error (split_all "-" s) i) as [x|] eqn:E; [|reflexivity].
    destruct (segment_part "e" s x i E) as [Se Sl].
    destruct (segment_part "E" s x i E) as [SE _].
    rewrite to_decimal_cell_plain; [reflexivity | | |lia].
    - destruct (mentions "e" x); [rewrite Se in He by reflexivity;
                                  discriminate | reflexivity].
    - destruct (mentions "E" x); [rewrite SE in HE by reflexivity;
                                  discriminate | reflexivity]. }
  unfold interval_defined. now rewrite !H.
Qed.

(** C2, as the code has it -- the stage puts into every row the two bounds
    of its interval cell and drops that cell, and fails when a cast
    raises; the interval is cut at every [-]: the lower bound
    is the cast to [decimal(4, 1)] of the text before the first [-], the
    upper bound the cast of the text between the first [-] and the next one
    (or the end), and null when the interval has no [-]; with a single [-]
    these are the texts on its two sides.  A bound the cast gives is null
    or a decimal with one fractional digit; on a number whose exponent is
    out of the engine's reach the cast raises instead, which an interval
    written without an exponent cannot bring about. *)
Theorem split_interval_segments :
  (forall rs,
      forallb (fun r => interval_defined (raw_interval r)) rs = true ->
      separate_interval (mkDataFrame coverage_schema (map coverage_cells rs))
      = Ok (mkDataFrame bounds_schema (map bounds_cells rs)))
  /\ (forall rs,
      existsb (fun r => interval_raises (raw_interval r)) rs = true ->
      exists e,
        separate_interval (mkDataFrame coverage_schema (map coverage_cells rs))
        = Failed e)
  /\ (forall v,
        interval_defined v = true ->
        bound_cell 0 v = Ok (fst (split_interval v))
        /\ bound_cell 1 v = Ok (snd (split_interval v)))
  /\ (forall a,
        mentions "-" a = false ->
        bound_cell 0 (VString a) = to_decimal_cell a
        /\ bound_cell 1 (VString a) = Ok VNull)
  /\ (forall a b,
        mentions "-" a = false -> mentions "-" b = false ->
        bound_cell 0 (VString (a ++ String "-" b)) = to_decimal_cell a
        /\ bound_cell 1 (VString (a ++ String "-" b)) = to_decimal_cell b)
  /\ (forall a b rest,
        mentions "-" a = false -> mentions "-" b = false ->
        bound_cell 0 (VString (a ++ String "-" (b ++ String "-" rest)))
        = to_decimal_cell a
        /\ bound_cell 1 (VString (a ++ String "-" (b ++ String "-" rest)))
           = to_decimal_cell b)
  /\ (forall i v x, bound_cell i v = Ok x -> x = bound i v /\ is_decimal 4 1 x)
  /\ (forall s,
        mentions "e" s = false -> mentions "E" s = false ->
        (Z.of_nat (length s) <= POWER_LIMIT)%Z ->
        interval_defined (VString s) = true)
  /\ bound_cell 0 (VString "80.0-95.5") = Ok (VDecimal 800 1)
  /\ bound_cell 1 (VString "80.0-95.5") = Ok (VDecimal 955 1)
  /\ bound_cell 0 (VString "80.0") = Ok (VDecimal 800 1)
  /\ bound_cell 1 (VString "80.0") = Ok VNull
  /\ bound_cell 1 (VString "80.0-1e2147483647") = Failed ArithmeticException.
Proof.
  split; [exact separate_interval_cells|].
  split; [exact separate_interval_raises|].
  split; [exact interval_defined_split|].
  split; [exact bound_cell_plain|].
  split; [exact bound_cell_two|].
  split; [exact bound_cell_more|].
  split; [exact bound_cell_is_decimal|].
  split; [exact plain_interval_defined|].
  repeat split; vm_compute; reflexivity.
Qed.

Lemma split_interval_segments_witness :
  separate_interval
    (mkDataFrame coverage_schema (map coverage_cells [scenario_row]))
  = Ok (mkDataFrame bounds_schema (map bounds_cells [scenario_row]))
  /\ (exists e,
        separate_interval
          (mkDataFrame coverage_schema (map coverage_cells [overflow_row]))
        = Failed e)
  /\ (bound_cell 0 (VString "80.0") = to_decimal_cell "80.0"
      /\ bound_cell 1 (VString "80.0") = Ok VNull)
  /\ (bound_cell 0 (VString ("80.0" ++ String "-" "95.5")) = to_decimal_cell "80.0"
      /\ bound_cell 1 (VString ("80.0" ++ String "-" "95.5"))
         = to_decimal_cell "95.5")
  /\ (bound_cell 0 (VString ("1.0" ++ String "-" ("2.0" ++ String "-" "3.0")))
      = to_decimal_cell "1.0"
      /\ bound_cell 1 (VString ("1.0" ++ String "-" ("2.0" ++ String "-" "3.0")))
         = to_decimal_cell "2.0")
  /\ (VDecimal 820 1 = bound 0 (VString "82.0-92.0")
      /\ is_decimal 4 1 (VDecimal 820 1))
  /\ interval_defined (VString "82.0-92.0") = true.
Proof.
  destruct split_interval_segments
    as (H1 & H2 & _ & H4 & H5 & H6 & H7 & H8 & _).
  split; [exact (H1 [scenario_row] eq_refl)|].
  split; [exact (H2 [overflow_row] eq_refl)|].
  split; [exact (H4 "80.0" eq_refl)|].
  split; [exact (H5 "80.0" "95.5" eq_refl eq_refl)|].
  split; [exact (H6 "1.0" "2.0" "3.0" eq_refl eq_refl)|].
  split; [exact (H7 0%nat (VString "82.0-92.0") (VDecimal 820 1) eq_refl)|].
  refine (H8 "82.0-92.0" eq_refl eq_refl _). vm_compute. discriminate.
Defined.

(** C2, as the specification words it, fails: cutting ["1.0-2.0-3.0"] at
    its first [-] only leaves ["2.0-3.0"] for the upper bound, which is no
    number, while the code takes ["2.0"]. *)
Lemma split_interval_not_first_only :
  split_interval (VString "1.0-2.0-3.0") = (VDecimal 10 1, VDecimal 20 1)
  /\ split_interval_first (VString "1.0-2.0-3.0") = (VDecimal 10 1, VNull).
Proof. split; vm_compute; reflexivity. Qed.

(** ** Counts *)

Lemma replace_comma (s : string) : replace_all "," EmptyString s = remove_char "," s.
Proof.
  unfold replace_all. induction s as [|c s IH]; [reflexivity|].
  change (replace_from "," EmptyString 0 (String c s))
    with (if prefix "," (String c s)
          then EmptyString ++ replace_from "," EmptyString 0 s
          else String c (replace_from "," EmptyString 0 s)).
  rewrite prefix_cons, prefix_empty, andb_true_r, IH.
  simpl. destruct (Ascii.eqb "," c); reflexivity.
Qed.

Lemma wrap32_small (z : Z) :
  (- 2 ^ 31 <= z < 2 ^ 31)%Z -> wrap32 z = z.
Proof. intro H. unfold wrap32. rewrite Z.mod_small; lia. Qed.


Lemma digit_facts (c : ascii) :
  is_digit c = true ->
  is_whitespace_or_control c = false
  /\ Ascii.eqb c "-" = false /\ Ascii.eqb c "+" = false /\ Ascii.eqb c "." = false
  /\ (0 <= digit_value c <= 9)%Z.
Proof.
  each_char c; intro H; try discriminate H;
    (repeat split; try reflexivity; vm_compute; discriminate).
Qed.

Lemma number_from_le (s : string) :
  forall acc, (0 <= acc)%Z -> all_digits s = true -> (acc <= number_from acc s)%Z.
Proof.
  induction s as [|c s IH]; intros acc Hacc Hs; simpl; [lia|].
  simpl in Hs. apply andb_prop in Hs as [Hc Hs].
  destruct (digit_facts c Hc) as (_ & _ & _ & _ & Hd).
  pose proof (IH (acc * 10 + digit_value c)%Z ltac:(lia) Hs). lia.
Qed.

Lemma to_int_digits_number (s : string) :
  forall acc,
    (0 <= acc)%Z -> all_digits s = true ->
    (number_from acc s <= 2147483647)%Z ->
    to_int_digits (- acc) s = Some ((- number_from acc s)%Z, EmptyString).
Proof.
  induction s as [|c s IH]; intros acc Hacc Hs Hmax; [reflexivity|].
  simpl in Hs. apply andb_prop in Hs as [Hc Hs].
  destruct (digit_facts c Hc) as (_ & _ & _ & Hdot & Hd).
  pose proof (number_from_le s (acc * 10 + digit_value c)%Z ltac:(lia) Hs) as Hle.
  simpl in Hmax. simpl to_int_digits. rewrite Hdot, Hc.
  change (Z.quot INT_MIN 10) with (-214748364)%Z.
  destruct (- acc <? -214748364)%Z eqn:E; [apply Z.ltb_lt in E; lia|].
  rewrite wrap32_small by lia.
  destruct (0 <? - acc * 10 - digit_value c)%Z eqn:E2;
    [apply Z.ltb_lt in E2; lia|].
  replace (- acc * 10 - digit_value c)%Z with (- (acc * 10 + digit_value c))%Z by lia.
  apply IH; auto; lia.
Qed.

Lemma drop_trailing_digits (s : string) :
  all_digits s = true -> drop_trailing is_whitespace_or_control s = s.
Proof.
  induction s as [|c s IH]; [reflexivity|].
  simpl. intro H. apply andb_prop in H as [Hc Hs].
  destruct (digit_facts c Hc) as (Hw & _). now rewrite Hw, IH.
Qed.




(** ** The whole transformation *)

(** C1 -- the five stages, run in order on the scenario's row, give the
    scenario's canonical row: the nine columns with their names, in this
    order, and the values [2018], ["Central"], ["HBV - Dose 1"], [1200],
    [1050], [87.5], [82.0], [92.0] and ["HBV"]. *)
Theorem transform_scenario :
  transform (raw_frame [scenario_row]) = Ok scenario_result.
Proof. vm_compute. reflexivity. Qed.

(** ** Rounding *)

Local Open Scope Z_scope.

Lemma half_up_floor (a D : Z) :
  0 <= a -> 0 < D ->
  (if D <=? 2 * (a mod D) then a / D + 1 else a / D) = (2 * a + D) / (2 * D).
Proof.
  intros Ha HD.
  pose proof (Z.div_mod a D ltac:(lia)) as Hdm.
  pose proof (Z.mod_pos_bound a D HD) as Hr.
  destruct (D <=? 2 * (a mod D)) eqn:E.
  - apply Z.leb_le in E.
    apply (Z.div_unique _ _ _ (2 * (a mod D) - D)); lia.
  - apply Z.leb_gt in E.
    apply (Z.div_unique _ _ _ (2 * (a mod D) + D)); lia.
Qed.

Lemma setScale_up (u sc s : Z) :
  sc <= s -> setScale_half_up (mkBigDecimal u sc) s = u * 10 ^ (s - sc).
Proof.
  intro H. unfold setScale_half_up. cbn [unscaledValue scale].
  destruct (sc <=? s) eqn:E; [reflexivity | apply Z.leb_gt in E; lia].
Qed.

Lemma setScale_down (u sc s : Z) :
  s < sc ->
  setScale_half_up (mkBigDecimal u sc) s
  = Z.sgn u * ((2 * Z.abs u + 10 ^ (sc - s)) / (2 * 10 ^ (sc - s))).
Proof.
  intro H. unfold setScale_half_up. cbn [unscaledValue scale].
  destruct (sc <=? s) eqn:E; [apply Z.leb_le in E; lia|].
  assert (HD : 0 < 10 ^ (sc - s)) by (apply Z.pow_pos_nonneg; lia).
  cbv zeta. now rewrite half_up_floor by (auto; lia).
Qed.

Lemma half_up_nonneg (a D : Z) : 0 <= a -> 0 < D -> 0 <= (2 * a + D) / (2 * D).
Proof. intros. apply Z.div_pos; lia. Qed.

Lemma setScale_monotone_same_scale (u1 u2 sc s : Z) :
  u1 <= u2 ->
  setScale_half_up (mkBigDecimal u1 sc) s <= setScale_half_up (mkBigDecimal u2 sc) s.
Proof.
  intro H. destruct (Z_le_gt_dec sc s) as [Hs|Hs].
  - rewrite !setScale_up by assumption.
    apply Z.mul_le_mono_nonneg_r; [apply Z.pow_nonneg; lia | assumption].
  - rewrite !setScale_down by lia.
    set (D := 10 ^ (sc - s)).
    assert (HD : 0 < D) by (apply Z.pow_pos_nonneg; lia).
    pose proof (half_up_nonneg (Z.abs u1) D ltac:(lia) HD) as H1.
    pose proof (half_up_nonneg (Z.abs u2) D ltac:(lia) HD) as H2.
    destruct (Z.lt_trichotomy u1 0) as [N1|[N1|N1]];
      destruct (Z.lt_trichotomy u2 0) as [N2|[N2|N2]]; try lia;
      repeat first [ rewrite (Z.sgn_neg u1) by lia | rewrite (Z.sgn_neg u2) by lia
                   | rewrite (Z.sgn_pos u1) by lia | rewrite (Z.sgn_pos u2) by lia
                   | rewrite (Z.sgn_null u1) by lia | rewrite (Z.sgn_null u2) by lia ];
      try lia.
    + assert ((2 * Z.abs u2 + D) / (2 * D) <= (2 * Z.abs u1 + D) / (2 * D))
        by (apply Z.div_le_mono; lia).
      lia.
    + assert ((2 * Z.abs u1 + D) / (2 * D) <= (2 * Z.abs u2 + D) / (2 * D))
        by (apply Z.div_le_mono; lia).
      lia.
Qed.

(** Writing a decimal with [k] more digits does not change how it is
    rounded. *)
Lemma setScale_aligned (u sc k s : Z) :
  0 <= k ->
  setScale_half_up (mkBigDecimal (u * 10 ^ k) (sc + k)) s
  = setScale_half_up (mkBigDecimal u sc) s.
Proof.
  intro Hk.
  assert (HK : 0 < 10 ^ k) by (apply Z.pow_pos_nonneg; lia).
  destruct (Z_le_gt_dec sc s) as [Hs|Hs].
  - rewrite (setScale_up u sc s Hs).
    destruct (Z_le_gt_dec (sc + k) s) as [Hs'|Hs'].
    + rewrite setScale_up by assumption.
      rewrite <- Z.mul_assoc, <- Z.pow_add_r by lia. f_equal. f_equal. lia.
    + rewrite setScale_down by lia.
      set (D := 10 ^ (sc + k - s)). set (E := 10 ^ (s - sc)).
      assert (HD : 0 < D) by (apply Z.pow_pos_nonneg; lia).
      assert (HE : 0 < E) by (apply Z.pow_pos_nonneg; lia).
      assert (Hsplit : 10 ^ k = E * D).
      { unfold D, E. rewrite <- Z.pow_add_r by lia. f_equal. lia. }
      rewrite Hsplit, Z.abs_mul, Z.sgn_mul.
      rewrite (Z.abs_eq (E * D)) by nia. rewrite (Z.sgn_pos (E * D)) by nia.
      assert (Hq : (2 * (Z.abs u * (E * D)) + D) / (2 * D) = Z.abs u * E).
      { symmetry. apply (Z.div_unique _ _ _ D); lia. }
      rewrite Hq, Z.mul_1_r, Z.mul_assoc.
      f_equal. rewrite Z.mul_comm. apply Z.abs_sgn.
  - rewrite !setScale_down by lia.
    set (D := 10 ^ (sc - s)).
    assert (HD : 0 < D) by (apply Z.pow_pos_nonneg; lia).
    assert (Hsplit : 10 ^ (sc + k - s) = D * 10 ^ k).
    { unfold D. rewrite <- Z.pow_add_r by lia. f_equal. lia. }
    rewrite Hsplit, Z.abs_mul, Z.sgn_mul.
    rewrite (Z.abs_eq (10 ^ k)) by lia. rewrite (Z.sgn_pos (10 ^ k)) by lia.
    rewrite Z.mul_1_r. f_equal.
    replace (2 * (Z.abs u * 10 ^ k) + D * 10 ^ k)
      with ((2 * Z.abs u + D) * 10 ^ k) by ring.
    replace (2 * (D * 10 ^ k)) with ((2 * D) * 10 ^ k) by ring.
    apply Z.div_mul_cancel_r; lia.
Qed.

(** Rounding half up keeps the order of the numbers. *)
Lemma setScale_monotone (a b : BigDecimal) (s : Z) :
  BigDecimal_le a b -> setScale_half_up a s <= setScale_half_up b s.
Proof.
  destruct a as [ua sa], b as [ub sb]. unfold BigDecimal_le.
  cbn [unscaledValue scale]. cbv zeta.
  set (m := Z.max sa sb). intro H.
  rewrite <- (setScale_aligned ua sa (m - sa) s) by lia.
  rewrite <- (setScale_aligned ub sb (m - sb) s) by lia.
  replace (sa + (m - sa)) with m by lia.
  replace (sb + (m - sb)) with m by lia.
  now apply setScale_monotone_same_scale.
Qed.

Local Close Scope Z_scope.

(** ** Columns a stage leaves alone *)

Lemma replace_cells_other (colName : string) (v : value) :
  forall names row i n,
    nth_error names i = Some n -> resolver n colName = false ->
    nth_error (replace_cells names colName v row) i = nth_error row i.
Proof.
  induction names as [|m names IH]; intros row i n Hn Hr.
  - destruct i; discriminate.
  - destruct row as [|x row]; [reflexivity|].
    destruct i as [|i]; simpl in Hn |- *.
    + injection Hn as ->. now rewrite Hr.
    + eapply IH; eauto.
Qed.

Lemma positions_exists (name : string) (sch : Schema) :
  forall k, positions name sch k <> [] ->
            existsb (fun n => resolver n name) (map fst sch) = true.
Proof.
  induction sch as [|[n t] sch IH]; intros k H; [now contradiction H|].
  simpl in H |- *. destruct (resolver n name); [reflexivity|].
  simpl. eapply IH; eauto.
Qed.

Lemma col_exists (name : string) (sch : Schema)
  (c : DataType * (Row -> result value)) :
  col name sch = Ok c ->
  existsb (fun n => resolver n name) (map fst sch) = true.
Proof.
  unfold col. destruct (mentions "." name || mentions "`" name); [discriminate|].
  destruct (positions name sch 0) eqn:E; [discriminate|].
  intros _. apply (positions_exists name sch 0). now rewrite E.
Qed.

Lemma to_number_exists (name : string) (sch : Schema)
  (c : DataType * (Row -> result value)) :
  to_number name sch = Ok c ->
  existsb (fun n => resolver n name) (map fst sch) = true.
Proof.
  unfold to_number, cast, regexp_replace, bind.
  destruct (col name sch) as [c0|] eqn:E; [|discriminate].
  intros _. eapply col_exists; eauto.
Qed.

(** Replacing the column [name] by its number leaves every column of
    another name as it is, at its place. *)
Lemma to_number_frame (name : string) (df df' : DataFrame) :
  withColumn name (to_number name) df = Ok df' ->
  List.length (schema df') = List.length (schema df)
  /\ List.length (rows df') = List.length (rows df)
  /\ forall i n t,
       nth_error (schema df) i = Some (n, t) -> resolver n name = false ->
       nth_error (schema df') i = Some (n, t)
       /\ column_at i df' = column_at i df.
Proof.
  unfold withColumn, bind.
  destruct (to_number name (schema df)) as [c|] eqn:E; [|discriminate].
  unfold columns. rewrite (to_number_exists _ _ _ E).
  destruct (traverse _ (rows df)) as [rows'|] eqn:Hrows; [|discriminate].
  intro H. injection H as <-. cbn [schema rows].
  split; [apply length_map|]. split; [exact (traverse_length _ _ _ Hrows)|].
  intros i n t Hi Hr.
  assert (Hs : nth_error
                 (map (fun f => if resolver (fst f) name then (name, fst c) else f)
                      (schema df)) i = Some (n, t)).
  { rewrite nth_error_map, Hi. simpl. now rewrite Hr. }
  split; [exact Hs|].
  unfold column_at. cbn [schema rows]. rewrite Hs, Hi. f_equal.
  refine (traverse_map_inv _ _ _ _ _ _ Hrows).
  intros row row'. destruct (snd c row) as [v|]; [|discriminate].
  cbn [bind]. intros [= <-].
  apply (replace_cells_other name v (map fst (schema df)) row i n); auto.
  now rewrite nth_error_map, Hi.
Qed.

(** C8 -- the numeric coercion keeps the number of columns and of rows,
    and every column whose name is neither [no_immunized] nor [no_eligible]
    is after the stage what it was before: same place, name and type, and
    the same cell in every row. *)
Theorem convert_numbers_frame (df df' : DataFrame) :
  convert_numbers df = Ok df' ->
  List.length (schema df') = List.length (schema df)
  /\ List.length (rows df') = List.length (rows df)
  /\ forall i n t,
       nth_error (schema df) i = Some (n, t) ->
       resolver n "no_immunized" = false -> resolver n "no_eligible" = false ->
       column_at i df' = column_at i df.
Proof.
  unfold convert_numbers, num_cols. cbn [fold_left bind].
  destruct (withColumn "no_immunized" (to_number "no_immunized") df)
    as [df1|] eqn:E1; [|discriminate].
  intro E2.
  destruct (to_number_frame _ _ _ E1) as (Hs1 & Hr1 & H1).
  destruct (to_number_frame _ _ _ E2) as (Hs2 & Hr2 & H2).
  split; [congruence|]. split; [congruence|].
  intros i n t Hi Hn1 Hn2.
  destruct (H1 i n t Hi Hn1) as [Hi1 Hc1].
  destruct (H2 i n t Hi1 Hn2) as [_ Hc2].
  congruence.
Qed.

Lemma convert_numbers_frame_witness :
  convert_numbers renamed_scenario = Ok converted_scenario
  /\ column_at 2 converted_scenario = column_at 2 renamed_scenario.
Proof.
  split; [vm_compute; reflexivity|].
  refine (proj2 (proj2 (convert_numbers_frame renamed_scenario converted_scenario _))
            2%nat "vaccine" StringType _ _ _); vm_compute; reflexivity.
Defined.

Lemma rename_cols_pointwise_witness :
  to_snake_case "Zone" = lower "Zone"
  /\ to_snake_case ("95%" ++ String "C" "I")
     = to_snake_case "95%" ++ String (lower_char "C") (snake_from (is_word "C") "I").
Proof.
  destruct rename_cols_pointwise as (_ & _ & H3 & H4).
  split; [exact (H3 "Zone" eq_refl) | exact (H4 "95%" "C"%char "I" eq_refl)].
Defined.

(** ** An interval that begins with [-] *)

(** The number written after a [-] is the negative of the number written
    without it. *)
Lemma parse_negative (t : string) :
  read_sign t = (false, t) ->
  parse_BigDecimal (String "-" t) = option_map negated (parse_BigDecimal t).
Proof.
  intro H. unfold parse_BigDecimal.
  change (read_sign (String "-" t)) with (true, t). rewrite H.
  destruct (read_digits 0 0 t) as [[int_part int_count] s2].
  destruct (match s2 with
            | EmptyString => (int_part, 0%Z, s2)
            | String c s2' =>
                if Ascii.eqb c "." then read_digits int_part 0 s2'
                else (int_part, 0%Z, s2)
            end) as [[significand frac_count] s3].
  destruct (int_count + frac_count =? 0)%Z; [reflexivity|].
  destruct (read_exponent s3) as [e|]; [|reflexivity].
  destruct (in_int32 (frac_count - e)); [|reflexivity].
  reflexivity.
Qed.

Lemma read_digits_nonneg (s : string) :
  forall acc count,
    (0 <= acc)%Z -> (0 <= fst (fst (read_digits acc count s)))%Z.
Proof.
  induction s as [|c s IH]; intros acc count Hacc; cbn [read_digits].
  - exact Hacc.
  - destruct (is_digit c) eqn:Hc; [|exact Hacc].
    apply IH. assert (0 <= digit_value c)%Z; [|lia].
    revert Hc. each_char c; intro Hc; try discriminate Hc; vm_compute;
      discriminate.
Qed.

(** A number written without a sign is not negative. *)
Lemma parse_unsigned (t : string) (d : BigDecimal) :
  read_sign t = (false, t) ->
  parse_BigDecimal t = Some d -> (0 <= unscaledValue d)%Z.
Proof.
  intros H. unfold parse_BigDecimal. rewrite H.
  pose proof (read_digits_nonneg t 0 0 ltac:(lia)) as H1.
  destruct (read_digits 0 0 t) as [[int_part int_count] s2]. cbn [fst] in H1.
  assert (H2 : forall r, r = match s2 with
            | EmptyString => (int_part, 0%Z, s2)
            | String c s2' =>
                if Ascii.eqb c "." then read_digits int_part 0 s2'
                else (int_part, 0%Z, s2)
            end -> (0 <= fst (fst r))%Z).
  { intros r ->. destruct s2 as [|c s2']; [exact H1|].
    destruct (Ascii.eqb c "."); [|exact H1].
    now apply read_digits_nonneg. }
  specialize (H2 _ eq_refl).
  destruct (match s2 with
            | EmptyString => (int_part, 0%Z, s2)
            | String c s2' =>
                if Ascii.eqb c "." then read_digits int_part 0 s2'
                else (int_part, 0%Z, s2)
            end) as [[significand frac_count] s3].
  cbn [fst] in H2.
  destruct (int_count + frac_count =? 0)%Z; [discriminate|].
  destruct (read_exponent s3) as [e|]; [|discriminate].
  destruct (in_int32 (frac_count - e)); [|discriminate].
  intros [= <-]. exact H2.
Qed.

Lemma setScale_nonneg (d : BigDecimal) (s : Z) :
  (0 <= unscaledValue d)%Z -> (0 <= setScale_half_up d s)%Z.
Proof.
  intro H. unfold setScale_half_up.
  destruct (scale d <=? s)%Z eqn:E.
  - apply Z.mul_nonneg_nonneg; [exact H|]. apply Z.pow_nonneg. lia.
  - apply Z.leb_gt in E.
    assert (HD : (0 < 10 ^ (scale d - s))%Z) by (apply Z.pow_pos_nonneg; lia).
    pose proof (Z.div_pos (Z.abs (unscaledValue d)) _ (Z.abs_nonneg _) HD) as Hq.
    destruct (10 ^ (scale d - s) <=? 2 * (Z.abs (unscaledValue d) mod 10 ^ (scale d - s)))%Z;
      apply Z.mul_nonneg_nonneg; try lia; apply Z.sgn_nonneg; exact H.
Qed.

Lemma digits_count_pos (fuel : nat) (n : Z) : (1 <= digits_count fuel n)%Z.
Proof.
  revert n. induction fuel as [|fuel IH]; intro n; cbn [digits_count]; [lia|].
  destruct (n <? 10)%Z; [lia|]. specialize (IH (n / 10)%Z). lia.
Qed.

Lemma digits_count_lower (fuel : nat) :
  forall n k,
    (1 <= k)%Z -> (k + 1 <= digits_count fuel n)%Z -> (10 ^ k <= n)%Z.
Proof.
  induction fuel as [|fuel IH]; intros n k Hk; cbn [digits_count]; [lia|].
  destruct (n <? 10)%Z eqn:E; [lia|]. apply Z.ltb_ge in E. intro H.
  destruct (Z.eq_dec k 1) as [->|Hne]; [exact E|].
  pose proof (IH (n / 10)%Z (k - 1)%Z ltac:(lia) ltac:(lia)) as H1.
  replace k with (1 + (k - 1))%Z by lia.
  rewrite Z.pow_add_r by lia. change (10 ^ 1)%Z with 10%Z.
  pose proof (Z.mul_div_le n 10 ltac:(lia)). lia.
Qed.

Lemma wrap32_le (z : Z) : (- 2 ^ 31 <= z)%Z -> (wrap32 z <= z)%Z.
Proof.
  intro H. unfold wrap32.
  pose proof (Z.mod_le (z + 2 ^ 31) (2 ^ 32) ltac:(lia) ltac:(lia)). lia.
Qed.

(** What the cast does with a number that is not negative and has at most
    [POWER_LIMIT] digits after the decimal point: the number rounded to one
    fractional digit when that has at most four digits, and null
    otherwise. *)
Lemma BigDecimal_to_decimal_plain (d : BigDecimal) :
  (0 <= unscaledValue d)%Z ->
  (0 <= scale d <= POWER_LIMIT)%Z ->
  BigDecimal_to_decimal 4 1 d
  = if (Z.abs (setScale_half_up d 1) <? 10 ^ 4)%Z
    then CastNumber (setScale_half_up d 1)
    else CastNull.
Proof.
  intros Hu Hs. unfold BigDecimal_to_decimal.
  assert (H1 : (1 <= precision d)%Z) by apply digits_count_pos.
  unfold POWER_LIMIT, MAX_PRECISION in *.
  destruct (38 <? wrap32 (precision d - scale d))%Z eqn:E1.
  - apply Z.ltb_lt in E1.
    pose proof (wrap32_le (precision d - scale d) ltac:(lia)) as Hw.
    assert (Hbig : (10 ^ (38 + scale d) <= unscaledValue d)%Z).
    { rewrite <- (Z.abs_eq _ Hu).
      apply (digits_count_lower (S (Z.to_nat (Z.log2 (Z.abs (unscaledValue d)))))).
      - lia.
      - fold (precision d). lia. }
    assert (Hle : BigDecimal_le (mkBigDecimal (10 ^ 38) 0) d).
    { destruct d as [u sc]. unfold BigDecimal_le. cbn [unscaledValue scale] in *.
      cbv zeta. rewrite Z.max_r by lia.
      rewrite Z.sub_0_r, Z.sub_diag, Z.mul_1_r, <- Z.pow_add_r by lia.
      exact Hbig. }
    pose proof (setScale_monotone _ _ 1 Hle) as Hm.
    rewrite setScale_up in Hm by lia.
    destruct (Z.abs (setScale_half_up d 1) <? 10 ^ 4)%Z eqn:E2; [|reflexivity].
    apply Z.ltb_lt in E2. exfalso.
    assert ((10 ^ 4 <= 10 ^ 38 * 10 ^ (1 - 0))%Z) by (vm_compute; discriminate).
    lia.
  - destruct (536870912 <? - scale d)%Z eqn:E2; [apply Z.ltb_lt in E2; lia|].
    destruct (536870912 <? scale d)%Z eqn:E3; [apply Z.ltb_lt in E3; lia|].
    unfold changePrecision.
    destruct (Z.abs (setScale_half_up d 1) <? 10 ^ 4)%Z; reflexivity.
Qed.

(** The upper bound of an interval that begins with [-]: the text up to
    the next [-] is what the negative number is written with after its
    sign; when it has no exponent, its cast is the magnitude of that
    number, rounded to one fractional digit, when that has at most four
    digits, and null otherwise. *)
Lemma to_decimal_cell_magnitude (a : string) (d : BigDecimal) :
  read_sign (trim a) = (false, trim a) ->
  mentions "e" a = false -> mentions "E" a = false ->
  (Z.of_nat (length a) <= POWER_LIMIT)%Z ->
  parse_BigDecimal (String "-" (trim a)) = Some d ->
  (unscaledValue d <= 0)%Z
  /\ parse_BigDecimal (trim a) = Some (negated d)
  /\ to_decimal_cell a
     = Ok (if (Z.abs (setScale_half_up d 1) <? 10 ^ 4)%Z
           then VDecimal (Z.abs (setScale_half_up d 1)) 1
           else VNull).
Proof.
  intros Hsign He HE Hlen Hparse.
  rewrite (parse_negative _ Hsign) in Hparse.
  destruct (parse_BigDecimal (trim a)) as [m|] eqn:Hm; [|discriminate].
  cbn [option_map] in Hparse. injection Hparse as <-.
  pose proof (parse_unsigned _ _ Hsign Hm) as Hpos.
  destruct (trim_part "e" a) as [Te Tl]. destruct (trim_part "E" a) as [TE _].
  assert (He' : mentions "e" (trim a) = false)
    by (destruct (mentions "e" (trim a)); [rewrite Te in He by reflexivity;
                                          discriminate | reflexivity]).
  assert (HE' : mentions "E" (trim a) = false)
    by (destruct (mentions "E" (trim a)); [rewrite TE in HE by reflexivity;
                                          discriminate | reflexivity]).
  pose proof (parse_plain_scale _ _ He' HE' Hm) as Hscale.
  assert (Hs : (0 <= scale m <= POWER_LIMIT)%Z) by lia.
  cbn [negated unscaledValue scale] in *.
  assert (Hmm : negated (negated m) = m).
  { destruct m as [u sc]. unfold negated. cbn [unscaledValue scale].
    now rewrite Z.opp_involutive. }
  split; [lia|]. split; [now rewrite Hmm|].
  assert (Hround : setScale_half_up (negated m) 1 = (- setScale_half_up m 1)%Z).
  { unfold setScale_half_up, negated. cbn [unscaledValue scale].
    rewrite Z.abs_opp, Z.sgn_opp.
    destruct (scale m <=? 1)%Z; [lia|].
    destruct (_ <=? _)%Z; lia. }
  pose proof (setScale_nonneg m 1 Hpos) as Hnn.
  rewrite Hround, Z.abs_opp, (Z.abs_eq _ Hnn).
  unfold to_decimal_cell, cast_cell, cast_error, cast_value, string_to_decimal.
  rewrite Hm, (BigDecimal_to_decimal_plain m Hpos Hs), (Z.abs_eq _ Hnn).
  destruct (setScale_half_up m 1 <? 10 ^ 4)%Z; reflexivity.
Qed.

Lemma bounds_cells_leading_dash (r : RawRow) (a rest : string) (x : value) :
  mentions "-" a = false ->
  raw_interval r = VString (String "-" (a ++ String "-" rest)) ->
  to_decimal_cell a = Ok x ->
  interval_defined (raw_interval r) = true
  /\ skipn 6 (bounds_cells r) = [VNull; x].
Proof.
  intros Ha Hr Hx.
  destruct (bound_cell_more EmptyString a rest eq_refl Ha) as [H0 H1].
  cbn [append] in H0, H1. rewrite Hx in H1.
  change (to_decimal_cell EmptyString) with (Ok VNull) in H0.
  assert (Hd : interval_defined (raw_interval r) = true).
  { unfold interval_defined. now rewrite Hr, H0, H1. }
  split; [exact Hd|].
  destruct (interval_defined_split _ Hd) as [E0 E1].
  rewrite Hr, H0 in E0. rewrite Hr, H1 in E1.
  injection E0 as E0. injection E1 as E1.
  unfold bounds_cells. cbn [skipn]. rewrite Hr.
  unfold split_interval in *. cbn [fst snd] in *. now rewrite <- E0, <- E1.
Qed.

(** C10, as the code has it -- an interval that begins with [-] has the
    empty string as its segment 0, whose cast is null, and the upper bound
    is the cast of the text between that [-] and the next one: the digits
    of the negative bound.  When these are written without an exponent,
    that cast is the magnitude of the negative number, rounded to one
    fractional digit, when the rounded magnitude has at most three digits
    before the decimal point, and null otherwise; the stage puts these two
    bounds into the row. *)
Theorem split_interval_leading_dash :
  (forall rs,
      forallb (fun r => interval_defined (raw_interval r)) rs = true ->
      separate_interval (mkDataFrame coverage_schema (map coverage_cells rs))
      = Ok (mkDataFrame bounds_schema (map bounds_cells rs)))
  /\ (forall r a rest x,
        mentions "-" a = false ->
        raw_interval r = VString (String "-" (a ++ String "-" rest)) ->
        to_decimal_cell a = Ok x ->
        interval_defined (raw_interval r) = true
        /\ skipn 6 (bounds_cells r) = [VNull; x])
  /\ (forall a rest,
      mentions "-" a = false ->
      split_all "-" (String "-" (a ++ String "-" rest))
      = EmptyString :: a :: split_all "-" rest
      /\ bound_cell 0 (VString (String "-" (a ++ String "-" rest))) = Ok VNull
      /\ bound_cell 1 (VString (String "-" (a ++ String "-" rest)))
         = to_decimal_cell a)
  /\ (forall a,
        mentions "-" a = false ->
        bound_cell 0 (VString (String "-" a)) = Ok VNull
        /\ bound_cell 1 (VString (String "-" a)) = to_decimal_cell a)
  /\ (forall a d,
        read_sign (trim a) = (false, trim a) ->
        mentions "e" a = false -> mentions "E" a = false ->
        (Z.of_nat (length a) <= POWER_LIMIT)%Z ->
        parse_BigDecimal (String "-" (trim a)) = Some d ->
        (unscaledValue d <= 0)%Z
        /\ parse_BigDecimal (trim a) = Some (negated d)
        /\ to_decimal_cell a
           = Ok (if (Z.abs (setScale_half_up d 1) <? 10 ^ 4)%Z
                 then VDecimal (Z.abs (setScale_half_up d 1)) 1
                 else VNull))
  /\ to_decimal_cell EmptyString = Ok VNull
  /\ bound_cell 0 (VString "-5.0-10.0") = Ok VNull
  /\ bound_cell 1 (VString "-5.0-10.0") = Ok (VDecimal 50 1)
  /\ bound_cell 1 (VString "-1000.0-2000.0") = Ok VNull.
Proof.
  split; [exact separate_interval_cells|].
  split; [exact bounds_cells_leading_dash|].
  split; [|split; [|split; [exact to_decimal_cell_magnitude|]]].
  - intros a rest Ha.
    pose proof (split_all_dash EmptyString (a ++ String "-" rest) eq_refl) as H0.
    cbn [append] in H0. split.
    + now rewrite H0, (split_all_dash a rest Ha).
    + exact (bound_cell_more EmptyString a rest eq_refl Ha).
  - intros a Ha. exact (bound_cell_two EmptyString a eq_refl Ha).
  - repeat split; vm_compute; reflexivity.
Qed.

Lemma split_interval_leading_dash_witness :
  separate_interval
    (mkDataFrame coverage_schema (map coverage_cells [negative_row]))
  = Ok (mkDataFrame bounds_schema (map bounds_cells [negative_row]))
  /\ (interval_defined (raw_interval negative_row) = true
      /\ skipn 6 (bounds_cells negative_row) = [VNull; VDecimal 50 1])
  /\ (bound_cell 0 (VString (String "-" ("5.0" ++ String "-" "10.0"))) = Ok VNull
      /\ bound_cell 1 (VString (String "-" ("5.0" ++ String "-" "10.0")))
         = to_decimal_cell "5.0")
  /\ (bound_cell 0 (VString (String "-" "5.0")) = Ok VNull
      /\ bound_cell 1 (VString (String "-" "5.0")) = to_decimal_cell "5.0")
  /\ ((-50 <= 0)%Z
      /\ parse_BigDecimal (trim "5.0") = Some (negated (mkBigDecimal (-50) 1))
      /\ to_decimal_cell "5.0" = Ok (VDecimal 50 1))
  /\ ((-10000 <= 0)%Z
      /\ parse_BigDecimal (trim "1000.0")
         = Some (negated (mkBigDecimal (-10000) 1))
      /\ to_decimal_cell "1000.0" = Ok VNull).
Proof.
  destruct split_interval_leading_dash as (H1 & H2 & H3 & H4 & H5 & _).
  split; [exact (H1 [negative_row] eq_refl)|].
  split; [exact (H2 negative_row "5.0" "10.0" (VDecimal 50 1)
                    eq_refl eq_refl eq_refl)|].
  split; [exact (proj2 (H3 "5.0" "10.0" eq_refl))|].
  split; [exact (H4 "5.0" eq_refl)|].
  split.
  - refine (H5 "5.0" (mkBigDecimal (-50) 1) eq_refl eq_refl eq_refl _ eq_refl).
    vm_compute. discriminate.
  - refine (H5 "1000.0" (mkBigDecimal (-10000) 1)
               eq_refl eq_refl eq_refl _ eq_refl).
    vm_compute. discriminate.
Defined.

(** C10, as the claim words it, fails: the interval ["-1000.0-2000.0"]
    begins with the negative number [-1000.0], whose magnitude is
    [1000.0]; the code gives a null upper bound, as a [decimal(4, 1)] has
    three digits before the decimal point. *)
Lemma leading_dash_magnitude_lost :
  transform (raw_frame [wide_row])
  = Ok (mkDataFrame canonical_schema
          [[VInt 2018; VString "Central"; VString "HBV - Dose 1";
            VInt 1200; VInt 1050; VDecimal 875 1;
            VNull; VNull; VString "HBV"]])
  /\ parse_BigDecimal "-1000.0" = Some (mkBigDecimal (-10000) 1)
  /\ split_all "-" "-1000.0-2000.0" = [EmptyString; "1000.0"; "2000.0"]
  /\ bound_cell 1 (VString "-1000.0-2000.0") = Ok VNull
  /\ VNull <> VDecimal 10000 1.
Proof.
  split; [vm_compute; reflexivity|].
  split; [vm_compute; reflexivity|].
  split; [vm_compute; reflexivity|].
  split; [vm_compute; reflexivity|discriminate].
Qed.

(** ** Order of the bounds *)

Lemma to_decimal_parsed (x : string) (u : Z) :
  to_decimal x = VDecimal u 1 ->
  exists d, parse_BigDecimal (trim x) = Some d /\ u = setScale_half_up d 1.
Proof.
  unfold to_decimal, cast_value, string_to_decimal.
  destruct (parse_BigDecimal (trim x)) as [d|]; [|discriminate].
  unfold BigDecimal_to_decimal.
  destruct (MAX_PRECISION <? wrap32 (precision d - scale d))%Z; [discriminate|].
  destruct (POWER_LIMIT <? - scale d)%Z;
    [destruct (unscaledValue d =? 0)%Z; discriminate|].
  destruct (POWER_LIMIT <? scale d)%Z; [discriminate|].
  unfold changePrecision.
  destruct (Z.abs (setScale_half_up d 1) <? 10 ^ 4)%Z; [|discriminate].
  intro H. injection H as <-. now exists d.
Qed.

(** C4, as the code has it -- the stage puts into every row the two bounds
    of its interval cell, and fails when a cast raises; each bound the
    casts give is null or a decimal with one fractional
    digit and at most four digits; the stage does not order the bounds:
    when both are numbers they come from the first two segments of the
    interval, and they stand in the order in which the numbers written
    there stand. *)
Theorem bounds_order_inherited :
  (forall rs,
      forallb (fun r => interval_defined (raw_interval r)) rs = true ->
      separate_interval (mkDataFrame coverage_schema (map coverage_cells rs))
      = Ok (mkDataFrame bounds_schema (map bounds_cells rs)))
  /\ (forall rs,
      existsb (fun r => interval_raises (raw_interval r)) rs = true ->
      exists e,
        separate_interval (mkDataFrame coverage_schema (map coverage_cells rs))
        = Failed e)
  /\ (forall i v x, bound_cell i v = Ok x -> x = bound i v /\ is_decimal 4 1 x)
  /\ (forall s u v,
         split_interval (VString s) = (VDecimal u 1, VDecimal v 1) ->
         exists x y dx dy,
           nth_error (split_all "-" s) 0 = Some x
           /\ nth_error (split_all "-" s) 1 = Some y
           /\ parse_BigDecimal (trim x) = Some dx
           /\ parse_BigDecimal (trim y) = Some dy
           /\ (BigDecimal_le dx dy -> (u <= v)%Z)
           /\ (BigDecimal_le dy dx -> (v <= u)%Z)).
Proof.
  split; [exact separate_interval_cells|].
  split; [exact separate_interval_raises|].
  split; [exact bound_cell_is_decimal|].
  intros s u v H. unfold split_interval in H. rewrite !bound_string in H.
  apply pair_equal_spec in H as [Hlo Hhi]. revert Hlo Hhi.
  destruct (nth_error (split_all "-" s) 0) as [x|]; [|intros; discriminate].
  destruct (nth_error (split_all "-" s) 1) as [y|]; [|intros; discriminate].
  intros Hlo Hhi.
  destruct (to_decimal_parsed x u Hlo) as (dx & Hx & ->).
  destruct (to_decimal_parsed y v Hhi) as (dy & Hy & ->).
  exists x, y, dx, dy. repeat split; auto; apply setScale_monotone.
Qed.

Lemma bounds_order_inherited_witness :
  separate_interval
    (mkDataFrame coverage_schema (map coverage_cells [inverted_row]))
  = Ok (mkDataFrame bounds_schema (map bounds_cells [inverted_row]))
  /\ (exists e,
        separate_interval
          (mkDataFrame coverage_schema (map coverage_cells [overflow_row]))
        = Failed e)
  /\ (VDecimal 920 1 = bound 1 (VString "82.0-92.0")
      /\ is_decimal 4 1 (VDecimal 920 1))
  /\ exists x y dx dy,
    nth_error (split_all "-" "82.0-92.0") 0 = Some x
    /\ nth_error (split_all "-" "82.0-92.0") 1 = Some y
    /\ parse_BigDecimal (trim x) = Some dx
    /\ parse_BigDecimal (trim y) = Some dy
    /\ (BigDecimal_le dx dy -> (820 <= 920)%Z)
    /\ (BigDecimal_le dy dx -> (920 <= 820)%Z).
Proof.
  destruct bounds_order_inherited as (H1 & H2 & H3 & H4).
  split; [exact (H1 [inverted_row] eq_refl)|].
  split; [exact (H2 [overflow_row] eq_refl)|].
  split; [exact (H3 1%nat (VString "82.0-92.0") (VDecimal 920 1) eq_refl)|].
  apply (H4 "82.0-92.0" 820%Z 920%Z).
  vm_compute. reflexivity.
Defined.

(** C4, as the specification words it, fails: the interval ["95.0-80.0"]
    gives a row whose two bounds are numbers, the lower one [95.0] and the
    upper one [80.0]. *)
Lemma bounds_not_ordered :
  transform (raw_frame [inverted_row])
  = Ok (mkDataFrame canonical_schema
          [[VInt 2018; VString "Central"; VString "HBV - Dose 1";
            VInt 1200; VInt 1050; VDecimal 875 1;
            VDecimal 950 1; VDecimal 800 1; VString "HBV"]])
  /\ split_interval (VString "95.0-80.0") = (VDecimal 950 1, VDecimal 800 1)
  /\ ~ (950 <= 800)%Z.
Proof. split; [|split]; [vm_compute; reflexivity .. | lia]. Qed.

(** ** Coverage *)

Local Open Scope Z_scope.

(** Rounding half up gives the nearest number of the new scale. *)
Lemma setScale_nearest (u sc s : Z) :
  s < sc ->
  Z.abs (2 * u - 2 * setScale_half_up (mkBigDecimal u sc) s * 10 ^ (sc - s))
  <= 10 ^ (sc - s).
Proof.
  intro H. rewrite setScale_down by assumption.
  set (D := 10 ^ (sc - s)).
  assert (HD : 0 < D) by (apply Z.pow_pos_nonneg; lia).
  pose proof (Z.div_mod (2 * Z.abs u + D) (2 * D) ltac:(lia)) as Hdm.
  pose proof (Z.mod_pos_bound (2 * Z.abs u + D) (2 * D) ltac:(lia)) as Hr.
  set (q := (2 * Z.abs u + D) / (2 * D)) in *.
  destruct (Z.lt_trichotomy u 0) as [N|[N|N]].
  - rewrite (Z.sgn_neg u) by lia. lia.
  - subst u. simpl Z.sgn. lia.
  - rewrite (Z.sgn_pos u) by lia. lia.
Qed.

Set Warnings "-inexact-float".

(** C7, as the code has it -- the stage replaces every cell of the coverage
    column by its rescaling; a null coverage stays null; a double is
    multiplied by 100 as a double, whatever its size, and the product,
    read as the decimal it is written as, is rounded half up to one
    fractional digit (the nearest such number); the result is a
    [decimal(4, 1)] cell, and it is null when the rounded number needs more
    than four digits or the product is not a number. *)
Theorem rescale_cell :
  (forall rs,
      rescale_coverage (mkDataFrame numbers_schema (map numbers_cells rs))
      = Ok (mkDataFrame coverage_schema (map coverage_cells rs)))
  /\ rescale VNull = VNull
  /\ (forall x,
        rescale (VDouble x)
        = decimal_cell 1 (double_to_decimal 4 1 (PrimFloat.mul x 100%float)))
  /\ (forall x d,
        double_to_BigDecimal (PrimFloat.mul x 100%float) = Some d ->
        rescale (VDouble x)
        = (if Z.abs (setScale_half_up d 1) <? 10 ^ 4
           then VDecimal (setScale_half_up d 1) 1 else VNull)
        /\ (scale d <= 1 ->
            setScale_half_up d 1 = unscaledValue d * 10 ^ (1 - scale d))
        /\ (1 < scale d ->
            Z.abs (2 * unscaledValue d
                   - 2 * setScale_half_up d 1 * 10 ^ (scale d - 1))
            <= 10 ^ (scale d - 1)))
  /\ (forall x,
        double_to_BigDecimal (PrimFloat.mul x 100%float) = None ->
        rescale (VDouble x) = VNull)
  /\ (forall v, is_decimal 4 1 (rescale v))
  /\ rescale (VDouble 0.873%float) = VDecimal 873 1
  /\ rescale (VDouble 1.5%float) = VDecimal 1500 1.
Proof.
  assert (H2 : forall x,
             rescale (VDouble x)
             = decimal_cell 1 (double_to_decimal 4 1 (PrimFloat.mul x 100%float)))
    by reflexivity.
  split; [exact rescale_coverage_cells|].
  split; [reflexivity|]. split; [exact H2|].
  split; [|split; [|split; [|split; vm_compute; reflexivity]]].
  - intros x [u sc] Hd. rewrite H2. unfold double_to_decimal. rewrite Hd.
    unfold changePrecision. cbn [unscaledValue scale].
    split; [destruct (Z.abs _ <? 10 ^ 4); reflexivity|].
    split; [apply setScale_up | apply setScale_nearest].
  - intros x Hd. rewrite H2. unfold double_to_decimal. now rewrite Hd.
  - intro v. apply cast_is_decimal.
Qed.

Lemma rescale_cell_witness :
  rescale (VDouble 0.873%float) = VDecimal 873 1
  /\ 873 = 873 * 10 ^ (1 - 1).
Proof.
  destruct (proj1 (proj2 (proj2 (proj2 rescale_cell))) 0.873%float
              (mkBigDecimal 873 1))
    as (H1 & H2 & _).
  - vm_compute. reflexivity.
  - split; [exact H1|]. apply H2. cbn. lia.
Defined.

(** C7, as the specification words it, fails for a large value: a coverage
    that is already a percentage, [87.5], is not rescaled to [8750.0]: its
    cell becomes null. *)
Lemma rescale_beyond_range :
  PrimFloat.ltb 1%float 87.5%float = true
  /\ rescale (VDouble 87.5%float) = VNull
  /\ transform (raw_frame [percent_row])
     = Ok (mkDataFrame canonical_schema
             [[VInt 2018; VString "Central"; VString "HBV - Dose 1";
               VInt 1200; VInt 1050; VNull;
               VDecimal 820 1; VDecimal 920 1; VString "HBV"]]).
Proof. repeat split; vm_compute; reflexivity. Qed.

Local Close Scope Z_scope.

(** * Further properties *)

(** ** Names *)

Lemma is_word_lower (c : ascii) : is_word (lower_char c) = is_word c.
Proof. each_char c; reflexivity. Qed.

Lemma is_special_lower (c : ascii) : is_special (lower_char c) = is_special c.
Proof. each_char c; reflexivity. Qed.

Lemma is_pct_or_hash_lower (c : ascii) :
  is_pct_or_hash (lower_char c) = is_pct_or_hash c.
Proof. each_char c; reflexivity. Qed.

Lemma special_lower_fixed (c : ascii) : is_special c = true -> lower_char c = c.
Proof. each_char c; intro H; try reflexivity; discriminate H. Qed.

Lemma snake_from_lower (s : string) :
  forall p, snake_from p (lower s) = snake_from p s.
Proof.
  induction s as [|c s IH]; intro p; [reflexivity|].
  change (lower (String c s)) with (String (lower_char c) (lower s)).
  rewrite !snake_from_cons, IH, is_word_lower, is_special_lower,
    is_pct_or_hash_lower, lower_char_idempotent.
  destruct (is_special c) eqn:E; [|reflexivity].
  now rewrite (special_lower_fixed c E).
Qed.

Lemma to_snake_case_lower (h : string) : to_snake_case (lower h) = to_snake_case h.
Proof. rewrite !to_snake_case_one_pass. apply snake_from_lower. Qed.

Lemma same_name_same_snake (a b : string) :
  resolver a b = true -> to_snake_case a = to_snake_case b.
Proof.
  unfold resolver. intro H. apply String.eqb_eq in H.
  rewrite <- (to_snake_case_lower a), <- (to_snake_case_lower b). now rewrite H.
Qed.

Lemma snake_from_after (p : bool) (s : string) :
  snake_from p s
  = (if p && starts_with_symbol s then "_" else EmptyString) ++ snake_from false s.
Proof.
  destruct s as [|c s]; [now destruct p|].
  rewrite !snake_from_cons. cbn [starts_with_symbol].
  rewrite andb_false_r, (andb_comm p). simpl (EmptyString ++ _).
  destruct (is_pct_or_hash c && p); reflexivity.
Qed.

(** X1 -- a name produced by [to_snake_case] holds none of [#], [%] and
    space, and lower-casing it changes nothing. *)
Theorem to_snake_case_alphabet (h : string) :
  has_special (to_snake_case h) = false
  /\ lower (to_snake_case h) = to_snake_case h.
Proof. exact (canonical_plain _ (to_snake_case_canonical h)). Qed.

(** X2 -- for texts whose characters are below U+0100, the strings of
    this development: the renaming of two texts put together is the
    renaming of each, with one underscore between them exactly when the
    first ends with a word character and the second begins with [%] or
    [#].  (Beyond U+00FF Python lowers a capital sigma by its place in the
    word, and the property does not hold.) *)
Theorem to_snake_case_app (a b : string) :
  to_snake_case (a ++ b)
  = to_snake_case a
    ++ (if ends_in_word false a && starts_with_symbol b then "_" else EmptyString)
    ++ to_snake_case b.
Proof.
  rewrite !to_snake_case_one_pass, snake_from_app.
  now rewrite (snake_from_after (ends_in_word false a) b).
Qed.

(** X3 -- two names whose characters are below U+0100, the strings of
    this development, and that differ only in the case of their letters
    get the same canonical name. *)
Theorem to_snake_case_ignores_case (a b : string) :
  resolver a b = true -> to_snake_case a = to_snake_case b.
Proof. exact (same_name_same_snake a b). Qed.

Lemma to_snake_case_ignores_case_witness :
  to_snake_case "% COVERAGE" = to_snake_case "% Coverage".
Proof. exact (to_snake_case_ignores_case "% COVERAGE" "% Coverage" eq_refl). Defined.

(** ** The renaming loop *)











(** ** Counts beyond plain digits *)

Local Open Scope Z_scope.

Lemma remove_char_app (x : ascii) (a b : string) :
  remove_char x (a ++ b) = remove_char x a ++ remove_char x b.
Proof.
  induction a as [|c a IH]; [reflexivity|].
  simpl. destruct (Ascii.eqb x c); simpl; now rewrite IH.
Qed.

Lemma coerce_string (s : string) :
  coerce (VString s)
  = match toInt (remove_char "," s) with
    | Some n => VInt n
    | None => VNull
    end.
Proof. unfold coerce, replace_value. now rewrite replace_comma. Qed.

(** The digit loop on a number too large for an [int]: it stops, or it
    ends on [INT_MIN], which has no positive counterpart. *)
Lemma to_int_digits_overflow (s : string) :
  forall acc,
    0 <= acc <= 2 ^ 31 -> all_digits s = true ->
    2147483647 < number_from acc s ->
    to_int_digits (- acc) s = None
    \/ to_int_digits (- acc) s = Some (- 2 ^ 31, EmptyString).
Proof.
  induction s as [|c s IH]; intros acc Hacc Hs Hbig.
  - right. simpl in Hbig |- *. do 2 f_equal. lia.
  - simpl in Hs. apply andb_prop in Hs as [Hc Hs].
    destruct (digit_facts c Hc) as (_ & _ & _ & Hdot & Hd).
    simpl in Hbig. simpl to_int_digits. rewrite Hdot, Hc.
    change (Z.quot INT_MIN 10) with (-214748364).
    destruct (- acc <? -214748364) eqn:E; [now left|].
    apply Z.ltb_ge in E.
    destruct (Z.eq_dec (acc * 10 + digit_value c) 2147483649) as [Hedge|Hedge].
    + left.
      replace (- acc * 10 - digit_value c) with (-2147483649) by lia.
      reflexivity.
    + rewrite wrap32_small by lia.
      destruct (0 <? - acc * 10 - digit_value c) eqn:E2;
        [apply Z.ltb_lt in E2; lia|].
      replace (- acc * 10 - digit_value c) with (- (acc * 10 + digit_value c))
        by lia.
      apply IH; auto; lia.
Qed.

Lemma toInt_too_large (s : string) :
  all_digits s = true -> 2147483647 < number s -> toInt s = None.
Proof.
  intros Hs Hbig. destruct s as [|c s]; [discriminate Hbig|].
  pose proof Hs as Hs'. simpl in Hs'. apply andb_prop in Hs' as [Hc _].
  destruct (digit_facts c Hc) as (Hw & Hm & Hp & _).
  unfold toInt. simpl drop_leading. rewrite Hw, Hm, Hp.
  rewrite (drop_trailing_digits _ Hs). simpl orb. cbv iota. simpl andb. cbv iota.
  destruct (to_int_digits_overflow (String c s) 0 ltac:(lia) Hs Hbig) as [H|H];
    simpl Z.opp in H; rewrite H; reflexivity.
Qed.

(** The digit loop stops at the decimal point and hands over what follows
    it. *)
Lemma to_int_digits_point (a b : string) :
  forall acc,
    0 <= acc -> all_digits a = true -> number_from acc a <= 2147483647 ->
    to_int_digits (- acc) (a ++ String "." b) = Some (- number_from acc a, b).
Proof.
  induction a as [|c a IH]; intros acc Hacc Ha Hmax; [reflexivity|].
  simpl in Ha. apply andb_prop in Ha as [Hc Ha].
  destruct (digit_facts c Hc) as (_ & _ & _ & Hdot & Hd).
  pose proof (number_from_le a (acc * 10 + digit_value c) ltac:(lia) Ha) as Hle.
  simpl in Hmax.
  change (to_int_digits (- acc) (String c a ++ String "." b))
    with (if Ascii.eqb c "." then Some (- acc, a ++ String "." b)
          else if is_digit c then
            if - acc <? Z.quot INT_MIN 10 then None
            else
              if 0 <? wrap32 (- acc * 10 - digit_value c) then None
              else to_int_digits (wrap32 (- acc * 10 - digit_value c))
                                 (a ++ String "." b)
          else None).
  rewrite Hdot, Hc. change (Z.quot INT_MIN 10) with (-214748364).
  destruct (- acc <? -214748364) eqn:E; [apply Z.ltb_lt in E; lia|].
  rewrite wrap32_small by lia.
  destruct (0 <? - acc * 10 - digit_value c) eqn:E2; [apply Z.ltb_lt in E2; lia|].
  replace (- acc * 10 - digit_value c) with (- (acc * 10 + digit_value c)) by lia.
  apply IH; auto; lia.
Qed.

Lemma drop_trailing_after_digits (a t : string) :
  all_digits a = true -> is_empty t = false ->
  drop_trailing is_whitespace_or_control t = t ->
  drop_trailing is_whitespace_or_control (a ++ t) = a ++ t.
Proof.
  intros Ha Ht Hfix. induction a as [|c a IH]; [exact Hfix|].
  simpl in Ha. apply andb_prop in Ha as [Hc Ha].
  destruct (digit_facts c Hc) as (Hw & _).
  simpl. now rewrite Hw, (IH Ha).
Qed.

Lemma drop_trailing_point (b : string) :
  all_digits b = true ->
  drop_trailing is_whitespace_or_control (String "." b) = String "." b.
Proof. intro Hb. simpl. now rewrite (drop_trailing_digits b Hb). Qed.

Lemma toInt_fraction (a b : string) :
  all_digits a = true -> all_digits b = true -> number a <= 2147483647 ->
  toInt (a ++ String "." b) = Some (number a).
Proof.
  intros Ha Hb Hmax.
  pose proof (drop_trailing_after_digits a (String "." b) Ha eq_refl
                (drop_trailing_point b Hb)) as Htrail.
  pose proof (to_int_digits_point a b 0 ltac:(lia) Ha Hmax) as Hloop.
  pose proof (number_from_le a 0 ltac:(lia) Ha) as Hpos.
  simpl Z.opp in Hloop. fold (number a) in Hloop, Hpos.
  assert (Hfirst : exists c t,
             a ++ String "." b = String c t
             /\ is_whitespace_or_control c = false
             /\ Ascii.eqb c "-" = false /\ Ascii.eqb c "+" = false).
  { destruct a as [|c a].
    - exists "."%char, b. repeat split.
    - simpl in Ha. apply andb_prop in Ha as [Hc _].
      destruct (digit_facts c Hc) as (Hw & Hm & Hp & _).
      exists c, (a ++ String "." b). repeat split; auto. }
  destruct Hfirst as (c & t & Heq & Hw & Hm & Hp).
  rewrite Heq in *. unfold toInt. simpl drop_leading. rewrite Hw, Hm, Hp, Htrail.
  simpl orb. cbv iota. simpl andb. cbv iota. rewrite Hloop, Hb.
  rewrite Z.opp_involutive, wrap32_small by lia.
  destruct (number a <? 0) eqn:E; [apply Z.ltb_lt in E; lia | reflexivity].
Qed.

Lemma toInt_negative (a : string) :
  a <> EmptyString -> all_digits a = true -> number a <= 2147483647 ->
  toInt (String "-" a) = Some (- number a).
Proof.
  intros Hne Ha Hmax. unfold toInt.
  change (drop_leading is_whitespace_or_control (String "-" a)) with (String "-" a).
  cbv beta iota.
  change (drop_trailing is_whitespace_or_control (String "-" a))
    with (if false && is_empty (drop_trailing is_whitespace_or_control a)
          then EmptyString
          else String "-" (drop_trailing is_whitespace_or_control a)).
  rewrite (drop_trailing_digits a Ha). cbn [andb].
  change (Ascii.eqb "-" "-") with true. cbn [orb andb].
  destruct a as [|c a]; [congruence|].
  change ((length (String "-" (String c a)) =? 1)%nat) with false. cbv iota.
  change (substring 1 (length (String "-" (String c a)) - 1) (String "-" (String c a)))
    with (substring 0 (length (String c a)) (String c a)).
  assert (Hsub : forall s, substring 0 (length s) s = s).
  { induction s as [|x s IH]; [reflexivity | simpl; now rewrite IH]. }
  rewrite Hsub.
  pose proof (to_int_digits_number (String c a) 0 ltac:(lia) Ha Hmax) as H.
  simpl Z.opp in H. rewrite H. reflexivity.
Qed.










(** X6 -- a count whose digits, commas left out, write a number above
    [2147483647] becomes null. *)
Theorem coerce_too_large (s : string) :
  all_digits (remove_char "," s) = true ->
  2147483647 < number (remove_char "," s) ->
  coerce (VString s) = VNull.
Proof.
  intros Hd Hbig. now rewrite coerce_string, toInt_too_large.
Qed.

Lemma coerce_too_large_witness : coerce (VString "2,147,483,648") = VNull.
Proof.
  apply coerce_too_large; [reflexivity | vm_compute; reflexivity].
Defined.

(** X7 -- a count written with a decimal point is not refused: the digits
    after the point are dropped, and the digits before it give the number
    (zero when there is none). *)
Theorem coerce_truncates_fraction (s a b : string) :
  remove_char "," s = a ++ String "." b ->
  all_digits a = true -> all_digits b = true -> number a <= 2147483647 ->
  coerce (VString s) = VInt (number a).
Proof.
  intros Hs Ha Hb Hmax. now rewrite coerce_string, Hs, toInt_fraction.
Qed.

Lemma coerce_truncates_fraction_witness : coerce (VString "1,234.56") = VInt 1234.
Proof.
  apply (coerce_truncates_fraction "1,234.56" "1234" "56");
    [reflexivity | reflexivity | reflexivity | vm_compute; discriminate].
Defined.

(** X8 -- a count written with a minus sign gives the negative number. *)
Theorem coerce_negative (s a : string) :
  remove_char "," s = String "-" a ->
  a <> EmptyString -> all_digits a = true -> number a <= 2147483647 ->
  coerce (VString s) = VInt (- number a).
Proof.
  intros Hs Hne Ha Hmax. now rewrite coerce_string, Hs, toInt_negative.
Qed.

Lemma coerce_negative_witness : coerce (VString "-1,050") = VInt (-1050).
Proof.
  apply (coerce_negative "-1,050" "1050");
    [reflexivity | discriminate | reflexivity | vm_compute; discriminate].
Defined.

(** X9 -- a comma counts for nothing wherever it stands: a cell and the
    cell with one more comma in it are coerced alike. *)
Theorem coerce_ignores_commas (a b : string) :
  coerce (VString (a ++ String "," b)) = coerce (VString (a ++ b)).
Proof.
  rewrite !coerce_string, !remove_char_app.
  change (remove_char "," (String "," b)) with (remove_char "," b).
  reflexivity.
Qed.

Local Close Scope Z_scope.

(** ** Splitting loses nothing *)

(** X10 -- for the two separators the notebook splits at, [-] for the
    interval and [ - ] for the vaccine name, the segments of a split, put
    together again with the separator between them, are the string that
    was split: no character is lost. *)
Theorem join_split (s : string) :
  join "-" (split_all "-" s) = s /\ join " - " (split_all " - " s) = s.
Proof.
  split.
  - apply (join_split_bounded "-" (length s)); [discriminate | lia].
  - apply (join_split_bounded " - " (length s)); [discriminate | lia].
Qed.

(** ** Group labels *)

Lemma prefix_truncated (p : string) :
  forall k s, prefix p (substring 0 k s) = true -> prefix p s = true.
Proof.
  induction p as [|a p IH]; intros k s H; [apply prefix_empty|].
  destruct k as [|k]; destruct s as [|c s]; try discriminate H.
  change (substring 0 (S k) (String c s)) with (String c (substring 0 k s)) in H.
  rewrite prefix_cons in H |- *. apply andb_prop in H as [Hc Hp].
  rewrite Hc. simpl. eapply IH; eauto.
Qed.

Lemma index_cons (p : string) (c : ascii) (s : string) :
  index 0 p (String c s)
  = if prefix p (String c s) then Some 0%nat
    else match index 0 p s with
         | Some n => Some (S n)
         | None => None
         end.
Proof. reflexivity. Qed.

Lemma no_occurrence_before (p : string) :
  p <> EmptyString ->
  forall s n, index 0 p s = Some n -> index 0 p (substring 0 n s) = None.
Proof.
  intros Hp s. induction s as [|c s IH]; intros n H.
  - destruct p; [congruence | discriminate H].
  - rewrite index_cons in H. destruct (prefix p (String c s)) eqn:E.
    + injection H as <-. destruct p; [congruence | reflexivity].
    + destruct (index 0 p s) as [m|] eqn:Em; [|discriminate H].
      injection H as <-.
      change (substring 0 (S m) (String c s)) with (String c (substring 0 m s)).
      rewrite index_cons.
      destruct (prefix p (String c (substring 0 m s))) eqn:E2.
      * apply (prefix_truncated p (S m) (String c s)) in E2. congruence.
      * now rewrite (IH m eq_refl).
Qed.

Lemma before_first_clean (p s : string) :
  p <> EmptyString -> index 0 p (before_first p s) = None.
Proof.
  intro Hp. unfold before_first. destruct (index 0 p s) as [n|] eqn:E.
  - now apply no_occurrence_before.
  - exact E.
Qed.

Lemma vaccine_group_label_clean (s g : string) :
  vaccine_group (VString s) = VString g ->
  index 0 " - " g = None /\ (prefix "MEN-C" g = true -> g = "MEN-C").
Proof.
  rewrite vaccine_group_string. intro H. injection H as <-.
  destruct (prefix "MEN-C" (before_first " - " s)) eqn:E.
  - split; reflexivity.
  - split; [apply before_first_clean; discriminate | congruence].
Qed.

(** X11 -- a group label holds no [" - "], and the only label that begins
    with [MEN-C] is [MEN-C] itself. *)
Theorem vaccine_group_labels (s g : string) :
  vaccine_group (VString s) = VString g ->
  index 0 " - " g = None /\ (prefix "MEN-C" g = true -> g = "MEN-C").
Proof. exact (vaccine_group_label_clean s g). Qed.

Lemma vaccine_group_labels_witness :
  index 0 " - " "MEN-C" = None /\ (prefix "MEN-C" "MEN-C" = true -> "MEN-C" = "MEN-C").
Proof. exact (vaccine_group_labels "MEN-C-ACYW135 - Dose 1" "MEN-C" eq_refl). Defined.

(** X12 -- the group of a group label is the label: grouping again what
    was grouped changes nothing. *)
Theorem vaccine_group_idempotent (v : value) :
  vaccine_group (vaccine_group v) = vaccine_group v.
Proof.
  destruct v as [| | |s| | |]; try reflexivity.
  pose proof (vaccine_group_string s) as E. revert E.
  generalize (if prefix "MEN-C" (before_first " - " s) then "MEN-C"
              else before_first " - " s).
  intros g E. rewrite E.
  destruct (vaccine_group_label_clean s g E) as [Hclean Hmen].
  rewrite vaccine_group_string. unfold before_first. rewrite Hclean.
  destruct (prefix "MEN-C" g) eqn:Ep; [|reflexivity].
  now rewrite (Hmen eq_refl).
Qed.

(** ** Columns that are not there *)

Lemma positions_none (name : string) (sch : Schema) :
  existsb (fun n => resolver n name) (map fst sch) = false ->
  forall k, positions name sch k = [].
Proof.
  induction sch as [|[n t] sch IH]; intros H k; [reflexivity|].
  simpl in H |- *. apply orb_false_elim in H as [Hn Hs].
  rewrite Hn. now apply IH.
Qed.

Lemma col_missing (name : string) (sch : Schema) :
  mentions "." name || mentions "`" name = false ->
  existsb (fun n => resolver n name) (map fst sch) = false ->
  col name sch = Failed (UnresolvedColumn name).
Proof.
  intros Hplain H. unfold col. rewrite Hplain.
  now rewrite (positions_none name sch H 0).
Qed.

Lemma withColumn_failed (name : string) (c : Column) (df : DataFrame) (e : error) :
  c (schema df) = Failed e -> withColumn name c df = Failed e.
Proof. intro H. unfold withColumn. now rewrite H. Qed.

Lemma convert_numbers_missing (df : DataFrame) :
  existsb (fun n => resolver n "no_immunized") (columns df) = false ->
  convert_numbers df = Failed (UnresolvedColumn "no_immunized").
Proof.
  intro H. unfold convert_numbers, num_cols. cbn [fold_left bind].
  rewrite (withColumn_failed _ _ _ (UnresolvedColumn "no_immunized"));
    [reflexivity|].
  unfold to_number, cast, regexp_replace.
  now rewrite (col_missing "no_immunized" (schema df) eq_refl H).
Qed.

Lemma rescale_coverage_missing (df : DataFrame) :
  existsb (fun n => resolver n "pct_coverage") (columns df) = false ->
  rescale_coverage df = Failed (UnresolvedColumn "pct_coverage").
Proof.
  intro H. unfold rescale_coverage. apply withColumn_failed.
  unfold cast, multiply.
  now rewrite (col_missing "pct_coverage" (schema df) eq_refl H).
Qed.

Lemma separate_interval_missing (df : DataFrame) :
  existsb (fun n => resolver n "95_pct_ci") (columns df) = false ->
  separate_interval df = Failed (UnresolvedColumn "95_pct_ci").
Proof.
  intro H. unfold separate_interval.
  rewrite (withColumn_failed _ _ _ (UnresolvedColumn "95_pct_ci"));
    [reflexivity|].
  unfold cast, getItem, split.
  now rewrite (col_missing "95_pct_ci" (schema df) eq_refl H).
Qed.

Lemma group_vaccines_missing (df : DataFrame) :
  existsb (fun n => resolver n "vaccine") (columns df) = false ->
  group_vaccines df = Failed (UnresolvedColumn "vaccine").
Proof.
  intro H. unfold group_vaccines.
  rewrite (withColumn_failed _ _ _ (UnresolvedColumn "vaccine"));
    [reflexivity|].
  unfold getItem, split.
  now rewrite (col_missing "vaccine" (schema df) eq_refl H).
Qed.

(** X13 -- a stage run on a frame without the column it reads fails as a
    whole, with that column reported as unresolved: [no_immunized] for the
    counts, [pct_coverage] for the coverage, [95_pct_ci] for the interval
    and [vaccine] for the groups.  So the three middle stages cannot run
    before the renaming. *)
Theorem stage_without_its_column (df : DataFrame) :
  (existsb (fun n => resolver n "no_immunized") (columns df) = false ->
   convert_numbers df = Failed (UnresolvedColumn "no_immunized"))
  /\ (existsb (fun n => resolver n "pct_coverage") (columns df) = false ->
      rescale_coverage df = Failed (UnresolvedColumn "pct_coverage"))
  /\ (existsb (fun n => resolver n "95_pct_ci") (columns df) = false ->
      separate_interval df = Failed (UnresolvedColumn "95_pct_ci"))
  /\ (existsb (fun n => resolver n "vaccine") (columns df) = false ->
      group_vaccines df = Failed (UnresolvedColumn "vaccine")).
Proof.
  split; [apply convert_numbers_missing|].
  split; [apply rescale_coverage_missing|].
  split; [apply separate_interval_missing | apply group_vaccines_missing].
Qed.

Lemma stage_without_its_column_witness :
  convert_numbers (raw_frame [scenario_row])
  = Failed (UnresolvedColumn "no_immunized")
  /\ rescale_coverage (raw_frame [scenario_row])
     = Failed (UnresolvedColumn "pct_coverage")
  /\ separate_interval (raw_frame [scenario_row])
     = Failed (UnresolvedColumn "95_pct_ci")
  /\ group_vaccines (mkDataFrame [("year", IntegerType)] [[VInt 2018]])
     = Failed (UnresolvedColumn "vaccine").
Proof.
  destruct (stage_without_its_column (raw_frame [scenario_row]))
    as (H1 & H2 & H3 & _).
  destruct (stage_without_its_column
              (mkDataFrame [("year", IntegerType)] [[VInt 2018]]))
    as (_ & _ & _ & H4).
  split; [exact (H1 eq_refl)|]. split; [exact (H2 eq_refl)|].
  split; [exact (H3 eq_refl) | exact (H4 eq_refl)].
Defined.

Lemma drop_cells_schema (name : string) (sch : Schema) :
  existsb (fun n => resolver n name)
          (map fst (drop_cells (map fst sch) name sch)) = false.
Proof.
  induction sch as [|[n t] sch IH]; [reflexivity|].
  simpl. destruct (resolver n name) eqn:E; [exact IH|].
  simpl. now rewrite E, IH.
Qed.

(** X14 -- whatever the frame, once the interval stage has run no column
    named [95_pct_ci] is left, and the stage run once more fails on the
    missing column. *)
Theorem separate_interval_once (df df' : DataFrame) :
  separate_interval df = Ok df' ->
  existsb (fun n => resolver n "95_pct_ci") (columns df') = false
  /\ separate_interval df' = Failed (UnresolvedColumn "95_pct_ci").
Proof.
  unfold separate_interval at 1.
  destruct (withColumn "lower_95_pct_ci" _ df) as [df1|]; [|discriminate].
  cbn [bind].
  destruct (withColumn "upper_95_pct_ci" _ df1) as [df2|]; [|discriminate].
  cbn [bind]. intro H. injection H as <-.
  assert (Hgone : existsb (fun n => resolver n "95_pct_ci")
                          (columns (drop "95_pct_ci" df2)) = false)
    by apply drop_cells_schema.
  split; [exact Hgone | now apply separate_interval_missing].
Qed.

Lemma separate_interval_once_witness :
  separate_interval (mkDataFrame bounds_schema [bounds_cells scenario_row])
  = Failed (UnresolvedColumn "95_pct_ci").
Proof.
  refine (proj2 (separate_interval_once
                   (mkDataFrame coverage_schema [coverage_cells scenario_row])
                   (mkDataFrame bounds_schema [bounds_cells scenario_row]) _)).
  vm_compute. reflexivity.
Defined.

(** ** The notebook's frame *)

(** X15 -- on the seven columns of the notebook the whole transformation
    works row by row.  When the two casts of every interval cell come to an
    end, it gives the nine canonical columns and as many rows, each row
    made from its own raw row alone, in the same order, whatever the other
    cells hold; when one interval cell has a bound whose cast raises (a
    number with an exponent out of the engine's reach), the transformation
    fails as a whole. *)
Theorem transform_row_by_row (rs : list RawRow) :
  (forallb (fun r => interval_defined (raw_interval r)) rs = true ->
   transform (raw_frame rs)
   = Ok (mkDataFrame canonical_schema (map canonical_cells rs))
   /\ List.length (map canonical_cells rs) = List.length rs)
  /\ (existsb (fun r => interval_raises (raw_interval r)) rs = true ->
      exists e, transform (raw_frame rs) = Failed e).
Proof.
  split.
  - intro H. split; [now apply transform_raw_frame | apply length_map].
  - apply transform_raises.
Qed.

Lemma transform_row_by_row_witness :
  (transform (raw_frame [scenario_row; inverted_row])
   = Ok (mkDataFrame canonical_schema
           (map canonical_cells [scenario_row; inverted_row]))
   /\ List.length (map canonical_cells [scenario_row; inverted_row])
      = List.length [scenario_row; inverted_row])
  /\ exists e, transform (raw_frame [scenario_row; overflow_row]) = Failed e.
Proof.
  split.
  - exact (proj1 (transform_row_by_row [scenario_row; inverted_row]) eq_refl).
  - exact (proj2 (transform_row_by_row [scenario_row; overflow_row]) eq_refl).
Defined.

(** X16 -- running the grouping stage once more on its own result changes
    nothing: the group column is computed again from the vaccine column and
    replaced in place. *)
Theorem group_vaccines_again (rs : list RawRow) :
  group_vaccines (mkDataFrame canonical_schema (map canonical_cells rs))
  = Ok (mkDataFrame canonical_schema (map canonical_cells rs)).
Proof.
  unfold group_vaccines.
  rewrite withColumn_map. analyse. rewrite withColumn_map. analyse.
  reflexivity.
Qed.

(** X17 -- the grouping stage does not need the renaming: names are
    resolved without regard to case, so it reads the column [Vaccine] of
    the raw frame, and renaming the columns after it gives the frame that
    grouping after the renaming gives. *)
Theorem group_vaccines_before_renaming (rs : list RawRow) :
  bind (group_vaccines (raw_frame rs)) (fun df => Ok (rename_columns df))
  = group_vaccines (rename_columns (raw_frame rs)).
Proof.
  rewrite rename_columns_raw. unfold group_vaccines, raw_frame.
  rewrite !withColumn_map. analyse. rewrite !withColumn_map. analyse.
  reflexivity.
Qed.

(** ** Blanks in the interval *)

Lemma drop_trailing_blank (f : ascii -> bool) (c : ascii) (s : string) :
  f c = true -> drop_trailing f (s ++ String c EmptyString) = drop_trailing f s.
Proof.
  intro Hc. induction s as [|x s IH]; simpl; [now rewrite Hc|].
  now rewrite IH.
Qed.

Lemma trim_blank_after (s : string) : trim (s ++ " ") = trim s.
Proof.
  unfold trim. induction s as [|x s IH]; [reflexivity|].
  change (String x s ++ " ") with (String x (s ++ " ")).
  cbn [drop_leading]. destruct (is_trimmed x); [exact IH|].
  change (String x (s ++ " ")) with (String x s ++ " ").
  now apply drop_trailing_blank.
Qed.

Lemma to_decimal_trim (a b : string) : trim a = trim b -> to_decimal a = to_decimal b.
Proof.
  intro H. unfold to_decimal, cast_value, string_to_decimal. now rewrite H.
Qed.

(** X18 -- blanks at the two ends of a bound are of no account: an
    interval written with [" - "] between its bounds is split into the
    bounds of the interval written with ["-"]. *)
Theorem split_interval_blanks (a b : string) :
  mentions "-" a = false -> mentions "-" b = false ->
  split_interval (VString (a ++ " - " ++ b))
  = split_interval (VString (a ++ String "-" b)).
Proof.
  intros Ha Hb.
  assert (Ha' : mentions "-" (a ++ " ") = false)
    by (rewrite mentions_app, Ha; reflexivity).
  assert (Hb' : mentions "-" (String " " b) = false)
    by (rewrite mentions_cons, Hb; reflexivity).
  replace (a ++ " - " ++ b) with ((a ++ " ") ++ String "-" (String " " b))
    by (rewrite app_assoc_string; reflexivity).
  rewrite (split_interval_two _ _ Ha' Hb'), (split_interval_two _ _ Ha Hb).
  apply pair_equal_spec. split; apply to_decimal_trim;
    [apply trim_blank_after | reflexivity].
Qed.

Lemma split_interval_blanks_witness :
  split_interval (VString ("82.0" ++ " - " ++ "92.0"))
  = split_interval (VString ("82.0" ++ String "-" "92.0")).
Proof. exact (split_interval_blanks "82.0" "92.0" eq_refl eq_refl). Defined.

(** ** Columns the rescaling leaves alone *)

Lemma withColumn_in_place (name : string) (c : Column) (df df' : DataFrame) :
  existsb (fun n => resolver n name) (columns df) = true ->
  withColumn name c df = Ok df' ->
  List.length (schema df') = List.length (schema df)
  /\ List.length (rows df') = List.length (rows df)
  /\ forall i n t,
       nth_error (schema df) i = Some (n, t) -> resolver n name = false ->
       column_at i df' = column_at i df.
Proof.
  intro Hex. unfold withColumn, bind.
  destruct (c (schema df)) as [c'|]; [|discriminate].
  rewrite Hex.
  destruct (traverse _ (rows df)) as [rows'|] eqn:Hrows; [|discriminate].
  intro H. injection H as <-. cbn [schema rows].
  split; [apply length_map|]. split; [exact (traverse_length _ _ _ Hrows)|].
  intros i n t Hi Hr. unfold column_at. cbn [schema rows]. f_equal.
  - rewrite nth_error_map, Hi. simpl. now rewrite Hr.
  - refine (traverse_map_inv _ _ _ _ _ _ Hrows).
    intros row row'. destruct (snd c' row) as [v|]; [|discriminate].
    cbn [bind]. intros [= <-].
    apply (replace_cells_other name v (columns df) row i n); auto.
    unfold columns. now rewrite nth_error_map, Hi.
Qed.

Lemma rescale_reads_its_column (df df' : DataFrame) :
  rescale_coverage df = Ok df' ->
  existsb (fun n => resolver n "pct_coverage") (columns df) = true.
Proof.
  intro H.
  destruct (existsb (fun n => resolver n "pct_coverage") (columns df)) eqn:E;
    [reflexivity|].
  rewrite (rescale_coverage_missing df E) in H. discriminate H.
Qed.

(** X19 -- for every frame, the rescaling keeps the number of columns and
    of rows, and every column not named [pct_coverage] is after it what it
    was before. *)
Theorem rescale_coverage_frame (df df' : DataFrame) :
  rescale_coverage df = Ok df' ->
  List.length (schema df') = List.length (schema df)
  /\ List.length (rows df') = List.length (rows df)
  /\ forall i n t,
       nth_error (schema df) i = Some (n, t) ->
       resolver n "pct_coverage" = false ->
       column_at i df' = column_at i df.
Proof.
  intro H.
  exact (withColumn_in_place _ _ df df' (rescale_reads_its_column df df' H) H).
Qed.

Lemma rescale_coverage_frame_witness :
  column_at 6 (mkDataFrame coverage_schema [coverage_cells scenario_row])
  = column_at 6 (mkDataFrame numbers_schema [numbers_cells scenario_row]).
Proof.
  refine (proj2 (proj2 (rescale_coverage_frame
                          (mkDataFrame numbers_schema [numbers_cells scenario_row])
                          (mkDataFrame coverage_schema [coverage_cells scenario_row])
                          _))
            6%nat "95_pct_ci" StringType _ _); vm_compute; reflexivity.
Defined.
